(** * MMM-Reddit node helper: image selection, post filtering, title formatting

    A shallow embedding of [node_helper.js].  JavaScript values are given the
    types the feed gives them: strings are [string] (one [ascii] per code
    unit), JSON integers are [Z], arrays are [list], a property that may be
    missing is an [option], and a call that may raise is a [result].

    The decoded feed is a tree (it comes out of [response.json()]), so no two
    posts share an array.  The one place where the helper mutates its input,
    [getAllImages], is written with explicit state passing: it hands back the
    updated image object together with the array it returns, and every caller
    threads the updated object on. *)

From Stdlib Require Import ZArith QArith Qround List String Ascii Bool Lia.
From Stdlib Require Import DecimalString.
Import ListNotations.

Local Open Scope string_scope.
Local Open Scope Z_scope.

(** ** Exceptions *)

(** The exceptions the helper can meet.  [OutsideFragment] is raised only by
    the literal-pattern regular-expression engine at the end of the
    definitions, for a pattern it does not cover. *)
Inductive JsError : Type :=
| TypeError
| SyntaxError
| OutsideFragment.

Inductive result (A : Type) : Type :=
| Ok (a : A)
| Throw (e : JsError).

Arguments Ok {A} a.
Arguments Throw {A} e.

Definition bind {A B : Type} (c : result A) (k : A -> result B) : result B :=
  match c with
  | Ok a => k a
  | Throw e => Throw e
  end.

Notation "x <- c ;; k" := (bind c (fun x => k))
  (at level 61, c at next level, right associativity).
Notation "' pat <- c ;; k" := (bind c (fun x => match x with pat => k end))
  (at level 61, pat pattern, c at next level, right associativity).

(** ** JavaScript built-ins used by the helper *)

Module Js.

(** [Array.prototype.pop]: the array left behind and the removed element,
    [None] (undefined) on an empty array, which it leaves empty. *)
Fixpoint pop {A : Type} (l : list A) : list A * option A :=
  match l with
  | [] => ([], None)
  | [x] => ([], Some x)
  | x :: l' => let '(front, last) := pop l' in (x :: front, last)
  end.

(** [Array.prototype.push] of one element. *)
Definition push {A : Type} (l : list A) (x : A) : list A := l ++ [x].

(** [arr[i]] for an integer [i]: undefined outside [0 .. length-1]. *)
Definition get {A : Type} (l : list A) (i : Z) : option A :=
  if i <? 0 then None else nth_error l (Z.to_nat i).

(** [Array.prototype.indexOf] on an array of strings. *)
Fixpoint arrayIndexOf (l : list string) (x : string) : Z :=
  match l with
  | [] => -1
  | y :: l' =>
      if String.eqb y x then 0
      else let k := arrayIndexOf l' x in if k <? 0 then -1 else k + 1
  end.

(** [String.prototype.indexOf]: first position of [pat] in [s], or -1. *)
Definition indexOf (s pat : string) : Z :=
  match String.index 0 pat s with
  | Some k => Z.of_nat k
  | None => -1
  end.

(** [String.prototype.startsWith]. *)
Definition startsWith (s pat : string) : bool := String.prefix pat s.

(** [Math.floor] and [Math.round] (halves go up).  The helper applies them
    to [k/4 * n] for an array length [n]; such a product is a multiple of a
    quarter and is exact in double precision, so rational arithmetic gives
    the same integers. *)
Definition Math_floor (x : Q) : Z := Qfloor x.
Definition Math_round (x : Q) : Z := Qfloor (x + (1 # 2))%Q.

(** [String.prototype.slice(0, e)] for an integer [e]: a negative end counts
    from the end of the string. *)
Definition slice0 (s : string) (e : Z) : string :=
  let len := Z.of_nat (String.length s) in
  let stop := if e <? 0 then Z.max (len + e) 0 else Z.min e len in
  String.substring 0 (Z.to_nat stop) s.

(** White space of [String.prototype.trim] among the code units below 256. *)
Definition isWhiteSpace (c : ascii) : bool :=
  let n := nat_of_ascii c in
  ((9 <=? n) && (n <=? 13) || (n =? 32) || (n =? 160))%nat.

Fixpoint trimStart (s : string) : string :=
  match s with
  | EmptyString => EmptyString
  | String c s' => if isWhiteSpace c then trimStart s' else s
  end.

Fixpoint trimEnd (s : string) : string :=
  match s with
  | EmptyString => EmptyString
  | String c s' =>
      match trimEnd s' with
      | EmptyString => if isWhiteSpace c then EmptyString else String c EmptyString
      | t => String c t
      end
  end.

Definition trim (s : string) : string := trimEnd (trimStart s).

(** Decimal rendering of an integer, as string concatenation does it for a
    safe integer ([|z| < 2^53]): there a JavaScript number is the integer
    itself and is printed with all its digits.  Larger numbers are rounded
    and, from [1e21] on, printed with an exponent; they are outside what
    this function describes. *)
Definition numberToString (z : Z) : string :=
  NilZero.string_of_int (Z.to_int z).

End Js.

(** ** Data model *)

Record ImageVariant : Type := {
  url : string;
  width : Z;
  height : Z
}.

(** One element of [preview.images]: [source] may be missing (the helper
    tests for it), [resolutions] is the array the helper pops and pushes. *)
Record ImageVariantSet : Type := {
  source : option ImageVariant;
  resolutions : list ImageVariant
}.

(** [preview]: the [images] property may be missing. *)
Record PreviewData : Type := {
  images : option (list ImageVariantSet)
}.

(** [post.data].  [thumbnail] is [None] when the feed gives no string there
    (undefined or null); [preview] is [None] when the property is
    undefined. *)
Record RawPost : Type := {
  title : string;
  score : Z;
  thumbnail : option string;
  preview : option PreviewData;
  num_comments : Z;
  subreddit : string;
  author : string;
  gilded : Z
}.

Record TitleRule : Type := {
  toReplace : string;
  replacement : string;
  caseSensitive : option bool
}.

Record Config : Type := {
  cfg_subreddit : string + list string;
  cfg_type : string;
  cfg_count : Z;
  displayType : string;
  imageQuality : string;
  titleReplacements : list TitleRule;
  characterLimit : option Z
}.

Record OutputPost : Type := {
  out_title : string;
  out_score : Z;
  out_thumbnail : option string;
  src : option string;
  out_gilded : Z;
  out_num_comments : Z;
  out_subreddit : string;
  out_author : string
}.

(** ** Image selection *)

Definition baseUrl : string := "https://www.reddit.com/".

(** List of image qualities in ascending order. *)
Definition qualityIndex : list string := ["low"; "mid"; "mid-high"; "high"].

(** [getAllImages]: the array it returns IS [imageObj.resolutions], so the
    pushes are visible to the caller; the first component is the image object
    after the call.  [lastImage.width] raises when the array was empty, and
    [imageObj.source.width] when there is no source. *)
Definition getAllImages (imageObj : ImageVariantSet)
  : result (ImageVariantSet * list ImageVariant) :=
  let '(imageSet, lastImage) := Js.pop (resolutions imageObj) in
  match lastImage with
  | None => Throw TypeError
  | Some lastImage =>
      match source imageObj with
      | None => Throw TypeError
      | Some source_ =>
          let lastIsSource :=
            (width lastImage =? width source_) &&
            (height lastImage =? height source_) in
          let imageSet := Js.push imageSet lastImage in
          let imageSet :=
            if negb lastIsSource then Js.push imageSet source_ else imageSet in
          Ok ({| source := source imageObj; resolutions := imageSet |}, imageSet)
      end
  end.

(** [skipNonImagePost]: [thumbnail.indexOf] raises when the thumbnail is not
    a string, [preview.images[0].hasOwnProperty] when [images] is empty. *)
Definition skipNonImagePost (preview : option PreviewData)
    (thumbnail : option string) : result bool :=
  let previewUndefined :=
    match preview with None => true | Some _ => false end in
  match thumbnail with
  | None => Throw TypeError
  | Some thumbnail =>
      let nonImageThumbnail := Js.indexOf thumbnail "http" =? -1 in
      if negb previewUndefined && negb nonImageThumbnail then
        match preview with
        | None => Ok true
        | Some preview =>
            match images preview with
            | None => Ok true
            | Some [] => Throw TypeError
            | Some (first :: _) =>
                match source first with
                | Some _ => Ok false
                | None => Ok true
                end
            end
        end
      else Ok true
  end.

(** The index computed by [getImageUrl] for a candidate list of [imageCount]
    entries. *)
Definition imageIndex (quality : string) (imageCount : Z) : Z :=
  let qualityIndex := Js.arrayIndexOf qualityIndex quality in
  let qualityPercent := (inject_Z qualityIndex / 4)%Q in
  if imageCount >? 5 then
    Js.Math_round (qualityPercent * inject_Z imageCount)
  else
    Js.Math_floor (qualityPercent * inject_Z imageCount).

(** [getImageUrl]: [None] is JavaScript's [null].  The first component is the
    preview after the call ([getAllImages] may have pushed onto the first
    image's [resolutions]).  [allPostImages[imageIndex].url] raises when the
    index is outside the array. *)
Definition getImageUrl (config : Config) (preview : option PreviewData)
    (thumbnail : option string)
  : result (option PreviewData * option string) :=
  skip <- skipNonImagePost preview thumbnail ;;
  if (skip : bool) then Ok (preview, None)
  else
    match preview with
    | None => Throw TypeError
    | Some p =>
        match images p with
        | None | Some [] => Throw TypeError
        | Some (first :: rest) =>
            '(first', allPostImages) <- getAllImages first ;;
            let imageCount := Z.of_nat (List.length allPostImages) in
            match Js.get allPostImages
                    (imageIndex (imageQuality config) imageCount) with
            | None => Throw TypeError
            | Some image =>
                Ok (Some {| images := Some (first' :: rest) |},
                    Some (url image))
            end
        end
    end.

(** ** Title formatting and the fetch cycle *)

(** [Array.prototype.forEach] whose callback updates one captured variable:
    a left fold that stops at the first exception. *)
Fixpoint forEach {A S : Type} (f : S -> A -> result S) (l : list A) (s : S)
  : result S :=
  match l with
  | [] => Ok s
  | x :: l' => s' <- f s x ;; forEach f l' s'
  end.

(** [Array.prototype.filter] with a callback that may mutate the element it
    is given: the survivors are the elements as the callback left them. *)
Fixpoint arrayFilter {A : Type} (f : A -> result (A * bool)) (l : list A)
  : result (list A) :=
  match l with
  | [] => Ok []
  | x :: l' =>
      '(x', keep) <- f x ;;
      rest <- arrayFilter f l' ;;
      Ok (if (keep : bool) then x' :: rest else rest)
  end.

(** [Array.prototype.map], same convention. *)
Fixpoint arrayMap {A B : Type} (f : A -> result (A * B)) (l : list A)
  : result (list B) :=
  match l with
  | [] => Ok []
  | x :: l' =>
      '(_, y) <- f x ;;
      rest <- arrayMap f l' ;;
      Ok (y :: rest)
  end.

(** What the helper sends out and logs. *)
Inductive Payload : Type :=
| PostsPayload (posts : list OutputPost)
| ErrorPayload (message : string).

Inductive Event : Type :=
| Fetch (url : string)
| ConsoleError (text : string) (err : option JsError)
| ConsoleLog (text : string)
| SocketNotification (notification : string) (payload : Payload).

(** The decoded body: [body?.data?.children]. *)
Record Child : Type := { post_data : RawPost }.
Record Listing : Type := { children : option (list Child) }.
Record Body : Type := { body_data : option Listing }.

(** What [fetch] gives back: a rejection, or a response whose [json()] either
    decodes a body ([None] for a null body) or raises. *)
Record Response : Type := {
  ok : bool;
  status : Z;
  statusText : string;
  json : result (option Body)
}.

Inductive FetchOutcome : Type :=
| FetchRejected
| FetchResolved (response : Response).

Definition formatSubreddit (subreddit : string + list string) : string :=
  match subreddit with
  | inl s => s
  | inr l => String.concat "+" l
  end.

Definition getUrl (config : Config) : string :=
  let url := baseUrl in
  let subreddit := formatSubreddit (cfg_subreddit config) in
  let type := cfg_type config in
  let count := cfg_count config in
  let url :=
    if negb (String.eqb subreddit "") && negb (String.eqb subreddit "frontpage")
    then url ++ "r/" ++ subreddit ++ "/" else url in
  url ++ type ++ "/.json?raw_json=1&limit=" ++ Js.numberToString count.

Definition sendData (posts : list OutputPost) : list Event :=
  [SocketNotification "REDDIT_POSTS" (PostsPayload posts)].

Definition sendError (error : string) : list Event :=
  [ConsoleLog error;
   SocketNotification "REDDIT_POSTS_ERROR" (ErrorPayload error)].

Definition noPostsMessage : string :=
  "No posts returned. Ensure the subreddit name is spelled correctly. Private subreddits are also inaccessible.".

Definition withPreview (post : RawPost) (preview' : option PreviewData)
  : RawPost :=
  {| title := title post; score := score post; thumbnail := thumbnail post;
     preview := preview'; num_comments := num_comments post;
     subreddit := subreddit post; author := author post;
     gilded := gilded post |}.

(** The callback of [.filter] in [getData].  [getImageUrl] is called for
    every post, whatever the display type. *)
Definition getData_filter (config : Config) (post : RawPost)
  : result (RawPost * bool) :=
  let thumbnail := thumbnail post in
  let hasValidThumbnail :=
    match thumbnail with
    | Some t => Js.startsWith t "http"
    | None => false
    end in
  '(preview', imageSrc) <- getImageUrl config (preview post) thumbnail ;;
  let isImageValid :=
    negb (String.eqb (displayType config) "image") ||
    match imageSrc with Some _ => true | None => false end in
  Ok (withPreview post preview', hasValidThumbnail && isImageValid).

Section RegExp.

(** [subject.replace(new RegExp(pattern, flags), replacement)]: the engine
    of the host.  [new RegExp] raises on a malformed pattern. *)
Variable regExpReplace :
  forall (pattern flags subject replacement : string), result string.

(** One turn of the [forEach] in [formatTitle]. *)
Definition applyModifier (title : string) (modifier : TitleRule)
  : result string :=
  let caseSensitive :=
    match caseSensitive modifier with Some b => b | None => true end in
  let caseFlag := if caseSensitive then "" else "i" in
  regExpReplace (toReplace modifier) ("g" ++ caseFlag) title
    (replacement modifier).

Definition formatTitle (config : Config) (title : string) : result string :=
  let replacements := titleReplacements config in
  let limit := characterLimit config in
  let originalLength := String.length title in
  title <- forEach applyModifier replacements title ;;
  match limit with
  | Some limit =>
      let title := Js.trim (Js.slice0 title limit) in
      if negb (Nat.eqb (String.length title) originalLength)
      then Ok (title ++ "...")
      else Ok title
  | None => Ok title
  end.

(** The callback of [.map] in [getData]; the object literal evaluates
    [formatTitle] before [getImageUrl]. *)
Definition getData_map (config : Config) (post : RawPost)
  : result (RawPost * OutputPost) :=
  title' <- formatTitle config (title post) ;;
  '(preview', src') <- getImageUrl config (preview post) (thumbnail post) ;;
  Ok (withPreview post preview',
      {| out_title := title'; out_score := score post;
         out_thumbnail := thumbnail post; src := src';
         out_gilded := gilded post; out_num_comments := num_comments post;
         out_subreddit := subreddit post; out_author := author post |}).

(** [body.data.children.filter(...).map(...)]. *)
Definition assemble (config : Config) (children : list Child)
  : result (list OutputPost) :=
  survivors <- arrayFilter (getData_filter config) (map post_data children) ;;
  arrayMap (getData_map config) survivors.

(** The [catch] block of [getData]. *)
Definition getData_catch (err : JsError) : list Event :=
  ConsoleError "Reddit fetch failed:" (Some err)
    :: sendError "An error occurred while fetching Reddit data.".

(** [body?.data?.children]. *)
Definition bodyChildren (body : option Body) : option (list Child) :=
  match body with
  | None => None
  | Some b =>
      match body_data b with
      | None => None
      | Some d => children d
      end
  end.

(** [getData], as the trace of what it requests, logs and sends, given what
    [fetch] answers. *)
Definition getData (config : Config) (outcome : FetchOutcome) : list Event :=
  Fetch (getUrl config) ::
  match outcome with
  | FetchRejected => getData_catch TypeError
  | FetchResolved response =>
      if negb (ok response) then
        ConsoleError
          ("Error fetching Reddit data: " ++ Js.numberToString (status response)
             ++ " " ++ statusText response) None
          :: sendError ("Error fetching Reddit data: "
                          ++ Js.numberToString (status response))
      else
        match json response with
        | Throw err => getData_catch err
        | Ok body =>
            match bodyChildren body with
            | None => sendError noPostsMessage
            | Some children =>
                match assemble config children with
                | Ok posts => sendData posts
                | Throw err => getData_catch err
                end
            end
        end
  end.

End RegExp.

(** ** Notifications from the front end *)

(** The helper object: [this.config], undefined until the first
    configuration arrives. *)
Record Helper : Type := { helper_config : option Config }.

(** The payload of a notification: [payload.config]. *)
Record ConfigPayload : Type := { payload_config : Config }.

(** [socketNotificationReceived]: the helper after the call and the trace of
    the cycle the call starts, followed to its end with what [fetch] answers
    (no other notification arrives while the cycle is under way, so
    [this.config] is the payload's configuration throughout). *)
Definition socketNotificationReceived
    (regExpReplace : string -> string -> string -> string -> result string)
    (self : Helper) (notification : string) (payload : ConfigPayload)
    (outcome : FetchOutcome) : Helper * list Event :=
  if String.eqb notification "REDDIT_CONFIG" then
    let self := {| helper_config := Some (payload_config payload) |} in
    (self,
     match helper_config self with
     | Some config => getData regExpReplace config outcome
     | None => []
     end)
  else (self, []).

(** ** A regular-expression engine for literal patterns

    [new RegExp(p, flags)] for a pattern made of letters, digits and spaces
    matches exactly the occurrences of [p], up to letter case under the [i]
    flag, and a replacement without [$] is inserted as it stands; the global
    replace rewrites the matches found scanning from the left, without
    overlap.  Outside that fragment this engine raises [OutsideFragment]. *)
Module Literal.

Definition isLiteralChar (c : ascii) : bool :=
  let n := nat_of_ascii c in
  ((n =? 32) || (48 <=? n) && (n <=? 57) || (65 <=? n) && (n <=? 90)
   || (97 <=? n) && (n <=? 122))%nat.

Fixpoint allChars (p : ascii -> bool) (s : string) : bool :=
  match s with
  | EmptyString => true
  | String c s' => p c && allChars p s'
  end.

Definition lower (c : ascii) : ascii :=
  let n := nat_of_ascii c in
  if ((65 <=? n) && (n <=? 90))%nat then ascii_of_nat (n + 32) else c.

Definition sameChar (ignoreCase : bool) (a b : ascii) : bool :=
  if ignoreCase then Ascii.eqb (lower a) (lower b) else Ascii.eqb a b.

(** Does [pattern] match at the start of [s]? *)
Fixpoint matchesAt (ignoreCase : bool) (pattern s : string) : bool :=
  match pattern, s with
  | EmptyString, _ => true
  | String _ _, EmptyString => false
  | String a p', String b s' => sameChar ignoreCase a b && matchesAt ignoreCase p' s'
  end.

(** Global replace; [skip] counts the code units of the current match that
    are still to be dropped. *)
Fixpoint replaceAll (ignoreCase : bool) (pattern replacement : string)
    (skip : nat) (s : string) : string :=
  match s with
  | EmptyString => EmptyString
  | String c s' =>
      match skip with
      | S k => replaceAll ignoreCase pattern replacement k s'
      | O =>
          if matchesAt ignoreCase pattern s then
            replacement ++
              replaceAll ignoreCase pattern replacement
                (String.length pattern - 1) s'
          else String c (replaceAll ignoreCase pattern replacement 0 s')
      end
  end.

Definition regExpReplace (pattern flags subject replacement : string)
  : result string :=
  let plain :=
    allChars isLiteralChar pattern && negb (String.eqb pattern "")
    && allChars (fun c => negb (Ascii.eqb c "$")) replacement in
  if negb plain then Throw OutsideFragment
  else if String.eqb flags "g" then
    Ok (replaceAll false pattern replacement 0 subject)
  else if String.eqb flags "gi" then
    Ok (replaceAll true pattern replacement 0 subject)
  else Throw OutsideFragment.

End Literal.

(** ** Vocabulary of the specification *)

(** Do the dimensions of [image] equal those of [source_]? *)
Definition sameSize (image source_ : ImageVariant) : bool :=
  (width image =? width source_) && (height image =? height source_).

(** The quality scale in the specification's words: low=0, mid=1,
    mid-high=2, high=3; any other text has no rank. *)
Definition rankOf (quality : string) : option Z :=
  if String.eqb quality "low" then Some 0
  else if String.eqb quality "mid" then Some 1
  else if String.eqb quality "mid-high" then Some 2
  else if String.eqb quality "high" then Some 3
  else None.

(** [pat] occurs somewhere in [s]. *)
Definition contains (s pat : string) : Prop :=
  exists before after, s = before ++ pat ++ after.

(** The flags the specification asks for: global, and case-insensitive
    exactly when the rule says [caseSensitive: false]. *)
Definition ruleFlags (rule : TitleRule) : string :=
  match caseSensitive rule with
  | Some false => "gi"
  | _ => "g"
  end.

(** The four ways the specification gives for a post not to be an image
    post: no preview, a thumbnail without "http", a preview without [images],
    a first image without [source]. *)
Definition notAnImagePost (preview : option PreviewData) (thumbnail : string)
  : Prop :=
  preview = None \/
  ~ contains thumbnail "http" \/
  (exists p, preview = Some p /\ images p = None) \/
  (exists p first rest,
     preview = Some p /\ images p = Some (first :: rest) /\
     source first = None).

(** The socket notifications of a trace, in order. *)
Definition isSocketNotification (e : Event) : bool :=
  match e with
  | SocketNotification _ _ => true
  | _ => false
  end.

Definition replies (trace : list Event) : list Event :=
  List.filter isSocketNotification trace.

(** The URLs a first image offers: those of its [resolutions], then the one
    of its source. *)
Definition urlsOf (first : ImageVariantSet) : list string :=
  (map url (resolutions first)
   ++ match source first with Some s => [url s] | None => [] end)%list.

(** Does the filter callback return on [post] and keep it? *)
Definition keeps (config : Config) (post : RawPost) : bool :=
  match getData_filter config post with
  | Ok (_, keep) => keep
  | Throw _ => false
  end.

(** [out] is the record of [post]: the title formatted, the image URL
    selected, the other fields copied. *)
Definition recordOf
    (regExpReplace : string -> string -> string -> string -> result string)
    (config : Config) (post : RawPost) (out : OutputPost) : Prop :=
  formatTitle regExpReplace config (title post) = Ok (out_title out) /\
  (exists preview',
     getImageUrl config (preview post) (thumbnail post)
     = Ok (preview', src out)) /\
  out_score out = score post /\
  out_thumbnail out = thumbnail post /\
  out_gilded out = gilded post /\
  out_num_comments out = num_comments post /\
  out_subreddit out = subreddit post /\
  out_author out = author post.

(** ** Concrete feed data used by the examples below *)

Module Sample.

Definition small : ImageVariant := {| url := "https://i/108"; width := 108; height := 60 |}.
Definition large : ImageVariant := {| url := "https://i/640"; width := 640; height := 360 |}.
Definition full : ImageVariant := {| url := "https://i/full"; width := 1920; height := 1080 |}.

(** A first image whose [resolutions] stop short of the source. *)
Definition imageObj : ImageVariantSet :=
  {| source := Some full; resolutions := [small; large] |}.

(** The same object once [getAllImages] has run on it. *)
Definition imageObjAfter : ImageVariantSet :=
  {| source := Some full; resolutions := [small; large; full] |}.

(** A tiny picture: the feed sends no [resolutions] for it. *)
Definition tinyImageObj : ImageVariantSet :=
  {| source := Some small; resolutions := [] |}.

Definition previewOf (first : ImageVariantSet) : PreviewData :=
  {| images := Some [first] |}.

Definition config (display quality : string) (rules : list TitleRule)
    (limit : option Z) : Config :=
  {| cfg_subreddit := inl "pics"; cfg_type := "hot"; cfg_count := 10;
     displayType := display; imageQuality := quality;
     titleReplacements := rules; characterLimit := limit |}.

Definition post (thumb : option string) (pv : option PreviewData) : RawPost :=
  {| title := "A picture"; score := 12; thumbnail := thumb; preview := pv;
     num_comments := 3; subreddit := "pics"; author := "someone";
     gilded := 0 |}.

Definition foxRule : TitleRule :=
  {| toReplace := "fox"; replacement := "cat"; caseSensitive := Some false |}.

Definition shortenRule : TitleRule :=
  {| toReplace := "Hello"; replacement := "Hi"; caseSensitive := None |}.

End Sample.

(** ** Arrays: [pop] and [push] *)

Lemma pop_push {A : Type} (l : list A) (x : A) :
  Js.pop (Js.push l x) = (l, Some x).
Proof.
  unfold Js.push.
  induction l as [|y l IH]; [reflexivity|].
  change ((y :: l) ++ [x])%list with (y :: (l ++ [x]))%list.
  cbn [Js.pop]. rewrite IH.
  destruct (l ++ [x])%list eqn:E; [destruct l; discriminate|reflexivity].
Qed.

Lemma pop_some {A : Type} (l front : list A) (x : A) :
  Js.pop l = (front, Some x) -> l = Js.push front x.
Proof.
  revert front. induction l as [|y l IH]; intros front H; [discriminate|].
  cbn [Js.pop] in H. destruct l as [|z l'].
  - inversion H; subst. reflexivity.
  - destruct (Js.pop (z :: l')) as [f o] eqn:E.
    inversion H; subst. unfold Js.push. cbn [app].
    f_equal. apply IH. reflexivity.
Qed.

Lemma pop_none {A : Type} (l front : list A) :
  Js.pop l = (front, None) -> l = [].
Proof.
  revert front. induction l as [|y l IH]; intros front H; [reflexivity|].
  cbn [Js.pop] in H. destruct l as [|z l']; [discriminate|].
  destruct (Js.pop (z :: l')) as [f o] eqn:E.
  inversion H; subst. discriminate (IH f eq_refl).
Qed.

(** ** [getAllImages] *)

(** On a non-empty [resolutions] with a source, [getAllImages] returns
    [resolutions] itself, with the source pushed when the last entry has
    other dimensions. *)
Lemma getAllImages_push (front : list ImageVariant)
    (lastImage source_ : ImageVariant) :
  let imageSet :=
    if sameSize lastImage source_ then Js.push front lastImage
    else Js.push (Js.push front lastImage) source_ in
  getAllImages {| source := Some source_;
                  resolutions := Js.push front lastImage |}
  = Ok ({| source := Some source_; resolutions := imageSet |}, imageSet).
Proof.
  unfold getAllImages, sameSize. cbn [resolutions source].
  rewrite pop_push.
  destruct ((width lastImage =? width source_) &&
            (height lastImage =? height source_)); reflexivity.
Qed.

(** Every successful call has that shape. *)
Lemma getAllImages_Ok (imageObj imageObj' : ImageVariantSet)
    (l : list ImageVariant) :
  getAllImages imageObj = Ok (imageObj', l) ->
  exists front lastImage source_,
    imageObj = {| source := Some source_;
                  resolutions := Js.push front lastImage |} /\
    l = (if sameSize lastImage source_ then Js.push front lastImage
         else Js.push (Js.push front lastImage) source_) /\
    imageObj' = {| source := Some source_; resolutions := l |}.
Proof.
  intros H. destruct imageObj as [so rs].
  destruct (Js.pop rs) as [front o] eqn:E.
  destruct o as [lastImage|].
  - apply pop_some in E. subst rs.
    destruct so as [source_|].
    + exists front, lastImage, source_. split; [reflexivity|].
      rewrite (getAllImages_push front lastImage source_) in H.
      inversion H; subst. split; reflexivity.
    + unfold getAllImages in H. cbn [resolutions source] in H.
      rewrite pop_push in H. discriminate.
  - unfold getAllImages in H. cbn [resolutions] in H. rewrite E in H.
    discriminate.
Qed.

Lemma sameSize_refl (image : ImageVariant) : sameSize image image = true.
Proof. unfold sameSize. now rewrite !Z.eqb_refl. Qed.

(** A second call finds the array as the first one left it and changes
    nothing. *)
Lemma getAllImages_again (imageObj imageObj' : ImageVariantSet)
    (l : list ImageVariant) :
  getAllImages imageObj = Ok (imageObj', l) ->
  getAllImages imageObj' = Ok (imageObj', l).
Proof.
  intros H.
  destruct (getAllImages_Ok _ _ _ H) as (front & lastImage & source_ & -> & Hl & ->).
  destruct (sameSize lastImage source_) eqn:E; subst l.
  - pose proof (getAllImages_push front lastImage source_) as P.
    cbv zeta in P. rewrite E in P. exact P.
  - pose proof (getAllImages_push (Js.push front lastImage) source_ source_) as P.
    cbv zeta in P. rewrite sameSize_refl in P. exact P.
Qed.

Lemma getAllImages_nonempty (imageObj imageObj' : ImageVariantSet)
    (l : list ImageVariant) :
  getAllImages imageObj = Ok (imageObj', l) -> l <> [].
Proof.
  intros H.
  destruct (getAllImages_Ok _ _ _ H) as (front & lastImage & source_ & _ & -> & _).
  unfold Js.push. destruct (sameSize lastImage source_);
    intros C; apply app_eq_nil in C; destruct C; discriminate.
Qed.

(** C2, at the input the helper does not survive: an image object with a
    source and an empty [resolutions] array.  [pop] returns undefined and
    [lastImage.width] raises; no candidate list is produced. *)
Theorem getAllImages_empty_resolutions_throws (source_ : ImageVariant) :
  getAllImages {| source := Some source_; resolutions := [] |}
  = Throw TypeError.
Proof. reflexivity. Qed.

(** ** The index arithmetic of [getImageUrl] *)

Lemma floor_quarters (a n : Z) :
  Js.Math_floor (inject_Z a / 4 * inject_Z n) = (a * n) / 4.
Proof.
  unfold Js.Math_floor, Qfloor, Qdiv, Qmult, Qinv, inject_Z. cbn.
  f_equal. lia.
Qed.

Lemma round_quarters (a n : Z) :
  Js.Math_round (inject_Z a / 4 * inject_Z n) = (a * n + 2) / 4.
Proof.
  unfold Js.Math_round, Qfloor, Qdiv, Qmult, Qinv, Qplus, inject_Z. cbn.
  replace (a * 1 * n * 2 + 4) with ((a * n + 2) * 2) by lia.
  change 8 with (4 * 2).
  rewrite Z.div_mul_cancel_r by lia. reflexivity.
Qed.

(** The helper's [indexOf] into [qualityIndex] is the rank of the scale. *)
Lemma rankOf_arrayIndexOf (quality : string) (r : Z) :
  rankOf quality = Some r ->
  Js.arrayIndexOf qualityIndex quality = r /\ 0 <= r <= 3.
Proof.
  unfold rankOf, qualityIndex. cbn [Js.arrayIndexOf].
  rewrite !(String.eqb_sym quality).
  destruct (String.eqb "low" quality);
    [intros [= <-]; split; [reflexivity|lia]|].
  destruct (String.eqb "mid" quality);
    [intros [= <-]; split; [reflexivity|lia]|].
  destruct (String.eqb "mid-high" quality);
    [intros [= <-]; split; [reflexivity|lia]|].
  destruct (String.eqb "high" quality);
    [intros [= <-]; split; [reflexivity|lia]|].
  discriminate.
Qed.

Lemma rankOf_In (quality : string) :
  In quality qualityIndex -> exists r, rankOf quality = Some r.
Proof.
  unfold qualityIndex. cbn [In].
  intros [<-|[<-|[<-|[<-|[]]]]]; eexists; reflexivity.
Qed.

(** Short lists: the floor of [r/4 * n]. *)
Lemma imageIndex_floor (quality : string) (r n : Z) :
  rankOf quality = Some r -> n <= 5 ->
  imageIndex quality n = (r * n) / 4.
Proof.
  intros Hr Hn. apply rankOf_arrayIndexOf in Hr as [Hr _].
  unfold imageIndex. rewrite Hr.
  destruct (n >? 5) eqn:E; [lia|]. apply floor_quarters.
Qed.

(** Longer lists: [r/4 * n] rounded, halves up. *)
Lemma imageIndex_round (quality : string) (r n : Z) :
  rankOf quality = Some r -> 5 < n ->
  imageIndex quality n = (r * n + 2) / 4.
Proof.
  intros Hr Hn. apply rankOf_arrayIndexOf in Hr as [Hr _].
  unfold imageIndex. rewrite Hr.
  destruct (n >? 5) eqn:E; [|lia]. apply round_quarters.
Qed.

(** For a rank of the scale the index stays inside a non-empty list, in
    both branches. *)
Lemma imageIndex_range (quality : string) (r n : Z) :
  rankOf quality = Some r -> 1 <= n ->
  0 <= imageIndex quality n < n.
Proof.
  intros Hr Hn. pose proof (rankOf_arrayIndexOf _ _ Hr) as [_ Hb].
  destruct (Z_le_gt_dec n 5) as [Hs|Hl].
  - rewrite (imageIndex_floor _ _ _ Hr Hs). split.
    + apply Z.div_pos; nia.
    + apply Z.div_lt_upper_bound; nia.
  - rewrite (imageIndex_round _ _ _ Hr) by lia. split.
    + apply Z.div_pos; nia.
    + apply Z.div_lt_upper_bound; nia.
Qed.

Lemma get_in_range {A : Type} (l : list A) (i : Z) :
  0 <= i < Z.of_nat (List.length l) -> exists x, Js.get l i = Some x.
Proof.
  intros H. unfold Js.get. destruct (i <? 0) eqn:E; [lia|].
  destruct (nth_error l (Z.to_nat i)) as [x|] eqn:N; [now exists x|].
  apply nth_error_None in N. lia.
Qed.

(** For an image post (one [skipNonImagePost] lets through) whose
    candidate list [l], of length [n], has been built, and a quality of rank
    [r] on the scale low=0 .. high=3, [getImageUrl] returns the URL of
    candidate number [i], where [i] is the floor of [r/4 * n] when [n <= 5]
    (that is [4 i <= r n < 4 i + 4]; then [0 <= i < n] as soon as [n >= 1])
    and [r/4 * n] rounded to the nearest integer when [n > 5]
    (that is [4 i - 2 <= r n < 4 i + 2]). *)
Theorem getImageUrl_index_by_rank
    (config : Config) (p : PreviewData) (thumbnail : option string)
    (first first' : ImageVariantSet) (rest : list ImageVariantSet)
    (l : list ImageVariant) (r : Z) :
  skipNonImagePost (Some p) thumbnail = Ok false ->
  images p = Some (first :: rest) ->
  getAllImages first = Ok (first', l) ->
  rankOf (imageQuality config) = Some r ->
  let n := Z.of_nat (List.length l) in
  let qualityPercent := (inject_Z r / 4)%Q in
  exists (i : Z) (image : ImageVariant),
    (n <= 5 ->
       i = Js.Math_floor (qualityPercent * inject_Z n) /\
       4 * i <= r * n < 4 * i + 4 /\ (1 <= n -> 0 <= i < n)) /\
    (5 < n ->
       i = Js.Math_round (qualityPercent * inject_Z n) /\
       4 * i - 2 <= r * n < 4 * i + 2) /\
    Js.get l i = Some image /\
    getImageUrl config (Some p) thumbnail
    = Ok (Some {| images := Some (first' :: rest) |}, Some (url image)).
Proof.
  intros Hskip Himg Hall Hr n qualityPercent.
  assert (Hn : 1 <= n).
  { pose proof (getAllImages_nonempty _ _ _ Hall) as Hne.
    subst n. destruct l; [congruence|]. cbn [List.length]. lia. }
  destruct (get_in_range l (imageIndex (imageQuality config) n))
    as [image Hget]; [apply (imageIndex_range _ r); assumption|].
  exists (imageIndex (imageQuality config) n), image.
  repeat split.
  - subst qualityPercent. rewrite floor_quarters.
    now apply imageIndex_floor.
  - rewrite (imageIndex_floor _ r) by assumption.
    pose proof (Z.mul_div_le (r * n) 4). lia.
  - rewrite (imageIndex_floor _ r) by assumption.
    pose proof (Z.mul_succ_div_gt (r * n) 4). lia.
  - apply (imageIndex_range _ r); assumption.
  - apply (imageIndex_range _ r); assumption.
  - subst qualityPercent. rewrite round_quarters.
    now apply imageIndex_round.
  - rewrite (imageIndex_round _ r) by assumption.
    pose proof (Z.mul_div_le (r * n + 2) 4). lia.
  - rewrite (imageIndex_round _ r) by assumption.
    pose proof (Z.mul_succ_div_gt (r * n + 2) 4). lia.
  - exact Hget.
  - unfold getImageUrl. rewrite Hskip. cbn [bind]. rewrite Himg, Hall.
    cbn [bind]. fold n. rewrite Hget. reflexivity.
Qed.

Lemma getImageUrl_index_by_rank_witness :
  let config := Sample.config "image" "high" [] None in
  let first' :=
    {| source := Some Sample.full;
       resolutions := [Sample.small; Sample.large; Sample.full] |} in
  rankOf (imageQuality config) = Some 3 /\
  getAllImages Sample.imageObj
  = Ok (first', [Sample.small; Sample.large; Sample.full]) /\
  exists i image,
    Js.get [Sample.small; Sample.large; Sample.full] i = Some image /\
    getImageUrl config (Some (Sample.previewOf Sample.imageObj))
      (Some "https://t/1.jpg")
    = Ok (Some {| images := Some [first'] |}, Some (url image)).
Proof.
  intros config first'. split; [reflexivity|]. split; [reflexivity|].
  destruct (getImageUrl_index_by_rank config
              (Sample.previewOf Sample.imageObj) (Some "https://t/1.jpg")
              Sample.imageObj first' []
              [Sample.small; Sample.large; Sample.full] 3
              eq_refl eq_refl eq_refl eq_refl)
    as (i & image & _ & _ & Hget & Hurl).
  exists i, image. split; assumption.
Defined.

(** C1, at the input the helper does not survive.  The post is an image
    post ([skipNonImagePost] lets it through) whose first image has a source
    and an empty [resolutions] array, so the candidate list is to hold the
    source alone and, for each quality of the scale, the index for one
    candidate is 0: the URL to return is the source's.  For each of the four
    qualities [getImageUrl] raises a TypeError instead: [getAllImages] reads
    [lastImage.width] on the undefined that [pop] gave, and no index is ever
    computed. *)
Theorem getImageUrl_index_empty_resolutions_throws :
  let preview := Some (Sample.previewOf Sample.tinyImageObj) in
  let thumbnail := Some "https://t/tiny.jpg" in
  skipNonImagePost preview thumbnail = Ok false /\
  Forall
    (fun quality =>
       (exists r, rankOf quality = Some r /\ imageIndex quality 1 = 0) /\
       getImageUrl (Sample.config "image" quality [] None) preview thumbnail
       = Throw TypeError)
    qualityIndex.
Proof.
  cbv zeta. split; [reflexivity|].
  repeat constructor; eexists; split; reflexivity.
Qed.

(** C9.  For a non-empty candidate list of length [n] and a quality of the
    scale, the index [getImageUrl] computes satisfies [0 <= i < n] in the
    floor branch and in the rounding branch alike: the rank is at most 3, so
    the rounded value is [(3 n + 2) / 4] at most, which is below [n].  The
    access [allPostImages[i]] therefore finds a candidate, and [i = n] does
    not occur. *)
Theorem imageIndex_within_candidates
    (l : list ImageVariant) (quality : string) :
  l <> [] ->
  In quality qualityIndex ->
  let n := Z.of_nat (List.length l) in
  let i := imageIndex quality n in
  Js.arrayIndexOf qualityIndex quality <= 3 /\
  0 <= i < n /\ i <> n /\
  exists image, Js.get l i = Some image.
Proof.
  intros Hne Hq n i.
  destruct (rankOf_In _ Hq) as [r Hr].
  pose proof (rankOf_arrayIndexOf _ _ Hr) as [Hidx Hb].
  assert (Hn : 1 <= n).
  { subst n. destruct l; [congruence|]. cbn [List.length]. lia. }
  pose proof (imageIndex_range quality r n Hr Hn) as Hi.
  split; [lia|]. split; [exact Hi|]. split; [subst i; lia|].
  apply get_in_range. exact Hi.
Qed.

Lemma imageIndex_within_candidates_witness :
  let l := [Sample.small; Sample.small; Sample.small; Sample.large;
            Sample.large; Sample.large; Sample.full] in
  imageIndex "high" 7 = 5 /\
  exists image, Js.get l (imageIndex "high" 7) = Some image.
Proof.
  intros l. split; [reflexivity|].
  refine (proj2 (proj2 (proj2
    (imageIndex_within_candidates l "high" _ _)))).
  - discriminate.
  - cbn. tauto.
Defined.

(** ** Strings: [indexOf] and substrings *)

Lemma substring_prefix (t s : string) :
  String.substring 0 (String.length t) s = t -> exists after, s = t ++ after.
Proof.
  revert s. induction t as [|c t IH]; intros s H.
  - exists s. reflexivity.
  - destruct s as [|c' s']; [discriminate|].
    cbn in H. injection H as -> H.
    destruct (IH _ H) as [after ->]. exists after. reflexivity.
Qed.

Lemma substring_contains (m : nat) (t s : string) :
  String.substring m (String.length t) s = t -> contains s t.
Proof.
  revert s. induction m as [|m IH]; intros s H.
  - destruct (substring_prefix _ _ H) as [after ->].
    exists "", after. reflexivity.
  - destruct s as [|c s'].
    + destruct t; [|destruct m; discriminate].
      exists "", "". reflexivity.
    + cbn in H. destruct (IH _ H) as (before & after & ->).
      exists (String c before), after. reflexivity.
Qed.

Lemma substring_of_contains (before t after : string) :
  String.substring (String.length before) (String.length t)
    (before ++ t ++ after) = t.
Proof.
  induction before as [|c before IH]; [|exact IH].
  cbn [String.length append]. revert after.
  induction t as [|c t IH]; intros after.
  - destruct after; reflexivity.
  - cbn. now rewrite IH.
Qed.

(** [indexOf] answers -1 exactly when the pattern does not occur. *)
Lemma indexOf_contains (s pat : string) :
  pat <> "" ->
  (Js.indexOf s pat =? -1) = true <-> ~ contains s pat.
Proof.
  intros Hne. unfold Js.indexOf.
  destruct (String.index 0 pat s) as [k|] eqn:E.
  - split; [intros H; apply Z.eqb_eq in H; lia|].
    intros H. exfalso. apply H.
    apply (substring_contains k). now apply (index_correct1 0).
  - split; [|reflexivity].
    intros _ (before & after & ->).
    apply (index_correct3 0 (String.length before) pat
             (before ++ pat ++ after) E Hne); [lia|].
    apply substring_of_contains.
Qed.

(** ** [skipNonImagePost] and the null result of [getImageUrl] *)

Lemma skipNonImagePost_true (preview : option PreviewData)
    (thumbnail : string) :
  skipNonImagePost preview (Some thumbnail) = Ok true <->
  notAnImagePost preview thumbnail.
Proof.
  unfold skipNonImagePost, notAnImagePost.
  pose proof (indexOf_contains thumbnail "http") as Hc.
  destruct (Js.indexOf thumbnail "http" =? -1) eqn:E.
  - assert (Hno : ~ contains thumbnail "http")
      by (apply Hc; [discriminate|reflexivity]).
    rewrite andb_false_r. split; [intros _; right; left; exact Hno|reflexivity].
  - assert (Hyes : ~ ~ contains thumbnail "http").
    { intros Hno. apply Hc in Hno; [discriminate Hno|discriminate]. }
    destruct preview as [p|]; cbn [negb andb].
    + destruct (images p) as [[|first rest]|] eqn:I.
      * split; [discriminate|].
        intros [H|[H|[(p' & [= <-] & H)|(p' & f & r & [= <-] & H & _)]]];
          try discriminate; try congruence. contradiction.
      * destruct (source first) eqn:S.
        -- split; [discriminate|].
           intros [H|[H|[(p' & [= <-] & H)|(p' & f & r & [= <-] & H & H')]]];
             try discriminate; try congruence. contradiction.
        -- split; [|reflexivity]. intros _. right. right. right.
           exists p, first, rest. auto.
      * split; [|reflexivity]. intros _. right. right. left.
        exists p. auto.
    + split; [|reflexivity]. intros _. left. reflexivity.
Qed.

Lemma skipNonImagePost_false (preview : option PreviewData)
    (thumbnail : option string) :
  skipNonImagePost preview thumbnail = Ok false ->
  exists p first rest source_,
    preview = Some p /\ images p = Some (first :: rest) /\
    source first = Some source_.
Proof.
  unfold skipNonImagePost. destruct thumbnail as [t|]; [|discriminate].
  destruct preview as [p|]; cbn [negb andb]; [|discriminate].
  destruct (negb (Js.indexOf t "http" =? -1)); [|discriminate].
  destruct (images p) as [[|first rest]|] eqn:I; try discriminate.
  destruct (source first) as [source_|] eqn:S; [|discriminate].
  intros _. exists p, first, rest, source_. auto.
Qed.

(** [getImageUrl] returns null exactly for the posts [skipNonImagePost]
    turns away, and a call that returns null hands the preview back as it
    was. *)
Lemma getImageUrl_null (config : Config) (preview : option PreviewData)
    (thumbnail : string) :
  (forall preview',
     getImageUrl config preview (Some thumbnail) = Ok (preview', None) ->
     preview' = preview) /\
  (getImageUrl config preview (Some thumbnail) = Ok (preview, None) <->
   notAnImagePost preview thumbnail).
Proof.
  rewrite <- skipNonImagePost_true. unfold getImageUrl.
  destruct (skipNonImagePost preview (Some thumbnail)) as [[|]|e] eqn:E;
    cbn [bind].
  - split; [now intros preview' [= <-]|]. split; reflexivity.
  - assert (N : forall preview',
              match preview with
              | Some p =>
                  match images p with
                  | Some (first :: rest) =>
                      ' (first', allPostImages) <- getAllImages first;;
                      match
                        Js.get allPostImages
                          (imageIndex (imageQuality config)
                             (Z.of_nat (List.length allPostImages)))
                      with
                      | Some image =>
                          Ok (Some {| images := Some (first' :: rest) |},
                              Some (url image))
                      | None => Throw TypeError
                      end
                  | _ => Throw TypeError
                  end
              | None => Throw TypeError
              end <> Ok (preview', None)).
    { intros preview' H.
      destruct preview as [p|]; [|discriminate].
      destruct (images p) as [[|first rest]|]; try discriminate.
      destruct (getAllImages first) as [[first' l]|]; [|discriminate].
      cbn [bind] in H. destruct (Js.get l _); discriminate. }
    split; [intros preview' H; now apply N in H|].
    split; [intros H; now apply N in H|discriminate].
  - split; [discriminate|]. split; discriminate.
Qed.

(** C3, at the input the helper does not survive.  The post has a preview,
    a thumbnail containing "http", an [images] collection and a first image
    with a source, so none of the four conditions holds and
    [skipNonImagePost] lets it through; the feed sent an empty [resolutions]
    array for it.  [getImageUrl] raises a TypeError instead of returning a
    URL. *)
Theorem getImageUrl_empty_resolutions_throws (config : Config) :
  let preview := Some (Sample.previewOf Sample.tinyImageObj) in
  let thumbnail := "https://t/tiny.jpg" in
  ~ notAnImagePost preview thumbnail /\
  skipNonImagePost preview (Some thumbnail) = Ok false /\
  getImageUrl config preview (Some thumbnail) = Throw TypeError.
Proof.
  intros preview thumbnail. split; [|split; reflexivity].
  rewrite <- skipNonImagePost_true. discriminate.
Qed.

(** ** What [getImageUrl] does to the caller's preview *)

(** C7, as the specification words it, fails: [getAllImages] works on
    [imageObj.resolutions] itself, not on a copy.  Here the last resolution
    is 640x360 and the source 1920x1080, so the source is pushed onto the
    caller's array and the preview after the call differs from the preview
    before it. *)
Lemma getImageUrl_changes_preview :
  let config := Sample.config "image" "high" [] None in
  getAllImages Sample.imageObj
  = Ok (Sample.imageObjAfter, resolutions Sample.imageObjAfter) /\
  resolutions Sample.imageObjAfter <> resolutions Sample.imageObj /\
  getImageUrl config (Some (Sample.previewOf Sample.imageObj))
    (Some "https://t/1.jpg")
  = Ok (Some (Sample.previewOf Sample.imageObjAfter), Some "https://i/full") /\
  Some (Sample.previewOf Sample.imageObjAfter)
  <> Some (Sample.previewOf Sample.imageObj).
Proof.
  cbv zeta. repeat split; try reflexivity; discriminate.
Qed.

(** C7, amended.  A call of [getImageUrl] that returns leaves the preview
    unchanged when it returns null, and also when the last entry of the
    first image's [resolutions] has the source's dimensions; otherwise the
    only change is that the source has been pushed at the end of that
    [resolutions] array.  The source, the other entries and the other images
    are as before.  A preview that has changed therefore comes with a
    URL. *)
Theorem getImageUrl_preview_after
    (config : Config) (preview preview' : option PreviewData)
    (thumbnail r : option string) :
  getImageUrl config preview thumbnail = Ok (preview', r) ->
  (r = None -> preview' = preview) /\
  ((r = None /\ preview' = preview) \/
   (exists u, r = Some u) /\
   exists p first rest front lastImage source_,
     preview = Some p /\ images p = Some (first :: rest) /\
     first = {| source := Some source_;
                resolutions := Js.push front lastImage |} /\
     preview' =
       Some {| images :=
                 Some ({| source := Some source_;
                          resolutions :=
                            if sameSize lastImage source_
                            then resolutions first
                            else Js.push (resolutions first) source_ |}
                         :: rest) |} /\
     (sameSize lastImage source_ = true -> preview' = preview)).
Proof.
  unfold getImageUrl.
  destruct (skipNonImagePost preview thumbnail) as [[|]|e] eqn:E;
    cbn [bind]; [| |discriminate].
  - intros [= <- <-]. split; [reflexivity|]. left. split; reflexivity.
  - intros H.
    destruct preview as [p|]; [|discriminate].
    destruct (images p) as [[|first rest]|] eqn:I; try discriminate.
    destruct (getAllImages first) as [[first' l]|] eqn:A; [|discriminate].
    cbn [bind] in H.
    destruct (Js.get l _) as [image|]; [|discriminate].
    injection H as <- <-.
    split; [discriminate|]. right.
    split; [now exists (url image)|].
    destruct (getAllImages_Ok _ _ _ A)
      as (front & lastImage & source_ & -> & Hl & ->).
    exists p, {| source := Some source_;
                 resolutions := Js.push front lastImage |},
      rest, front, lastImage, source_.
    cbn [resolutions]. subst l.
    split; [reflexivity|]. split; [exact I|].
    split; [reflexivity|]. split; [reflexivity|].
    intros S. rewrite S. destruct p as [im]. cbn [images] in I.
    subst im. reflexivity.
Qed.

Lemma getImageUrl_preview_after_witness :
  let config := Sample.config "image" "high" [] None in
  let preview := Some (Sample.previewOf Sample.imageObj) in
  getImageUrl config preview (Some "https://t/1.jpg")
  = Ok (Some (Sample.previewOf Sample.imageObjAfter), Some "https://i/full") /\
  ((Some "https://i/full" = None /\
    Some (Sample.previewOf Sample.imageObjAfter) = preview) \/
   (exists u, Some "https://i/full" = Some u) /\
   exists p first rest front lastImage source_,
     preview = Some p /\ images p = Some (first :: rest) /\
     first = {| source := Some source_;
                resolutions := Js.push front lastImage |} /\
     Some (Sample.previewOf Sample.imageObjAfter) =
       Some {| images :=
                 Some ({| source := Some source_;
                          resolutions :=
                            if sameSize lastImage source_
                            then resolutions first
                            else Js.push (resolutions first) source_ |}
                         :: rest) |} /\
     (sameSize lastImage source_ = true ->
      Some (Sample.previewOf Sample.imageObjAfter) = preview)).
Proof.
  intros config preview. split; [reflexivity|].
  exact (proj2 (getImageUrl_preview_after config preview
                  (Some (Sample.previewOf Sample.imageObjAfter))
                  (Some "https://t/1.jpg") (Some "https://i/full")
                  eq_refl)).
Defined.

(** ** Calling [getImageUrl] a second time *)

Lemma getImageUrl_again
    (config : Config) (preview preview' : option PreviewData)
    (thumbnail r : option string) :
  getImageUrl config preview thumbnail = Ok (preview', r) ->
  getImageUrl config preview' thumbnail = Ok (preview', r).
Proof.
  intros H. pose proof H as H0. unfold getImageUrl in H.
  destruct (skipNonImagePost preview thumbnail) as [[|]|e] eqn:E;
    cbn [bind] in H; [| |discriminate].
  - injection H as <- <-. exact H0.
  - clear H0.
    destruct (skipNonImagePost_false _ _ E)
      as (p & first & rest & source_ & -> & I & S).
    rewrite I in H.
    destruct (getAllImages first) as [[first' l]|] eqn:A; [|discriminate].
    cbn [bind] in H.
    destruct (Js.get l _) as [image|] eqn:G; [|discriminate].
    injection H as <- <-.
    pose proof (getAllImages_again _ _ _ A) as A'.
    destruct (getAllImages_Ok _ _ _ A) as (f & li & so & Hf & _ & Hf').
    assert (E' : skipNonImagePost
                   (Some {| images := Some (first' :: rest) |}) thumbnail
                 = Ok false).
    { unfold skipNonImagePost in E |- *.
      destruct thumbnail as [t|]; [|discriminate].
      cbn [negb andb] in E |- *.
      destruct (negb (Js.indexOf t "http" =? -1)); [|discriminate].
      cbn [images]. rewrite Hf'. reflexivity. }
    unfold getImageUrl. rewrite E'. cbn [bind images]. rewrite A'.
    cbn [bind]. rewrite G. reflexivity.
Qed.

(** What a returning filter callback has done: one [getImageUrl], whose
    updated preview is stored in the post. *)
Lemma getData_filter_Ok (config : Config) (post post' : RawPost)
    (keep : bool) :
  getData_filter config post = Ok (post', keep) ->
  exists imageSrc,
    getImageUrl config (preview post) (thumbnail post)
    = Ok (preview post', imageSrc) /\
    getImageUrl config (preview post') (thumbnail post')
    = Ok (preview post', imageSrc) /\
    post' = withPreview post (preview post') /\
    keep =
      match thumbnail post with
      | Some t => Js.startsWith t "http"
      | None => false
      end &&
      (negb (String.eqb (displayType config) "image") ||
       match imageSrc with Some _ => true | None => false end).
Proof.
  unfold getData_filter. intros H.
  destruct (getImageUrl config (preview post) (thumbnail post))
    as [[preview' imageSrc]|] eqn:G; [|discriminate].
  cbn [bind] in H. injection H as <- <-.
  exists imageSrc. cbn [withPreview preview thumbnail].
  split; [reflexivity|].
  split; [exact (getImageUrl_again _ _ _ _ _ G)|].
  split; reflexivity.
Qed.

(** Every post [arrayFilter] keeps is in the state a further [getImageUrl]
    leaves alone. *)
Lemma arrayFilter_survivors_stable (config : Config)
    (posts survivors : list RawPost) :
  arrayFilter (getData_filter config) posts = Ok survivors ->
  Forall (fun post' =>
            exists imageSrc,
              getImageUrl config (preview post') (thumbnail post')
              = Ok (preview post', imageSrc)) survivors.
Proof.
  revert survivors. induction posts as [|post posts IH]; intros survivors H.
  - injection H as <-. constructor.
  - cbn [arrayFilter] in H.
    destruct (getData_filter config post) as [[post' keep]|] eqn:F;
      [|discriminate].
    cbn [bind] in H.
    destruct (arrayFilter (getData_filter config) posts) as [rest|];
      [|discriminate].
    cbn [bind] in H. injection H as <-.
    specialize (IH rest eq_refl).
    destruct keep; [|exact IH].
    constructor; [|exact IH].
    destruct (getData_filter_Ok _ _ _ _ F) as (imageSrc & _ & G & _).
    now exists imageSrc.
Qed.

(** C10.  [getImageUrl] runs twice on a post that gets through the filter:
    once in the filter callback and once in the map callback, on the object
    the first call left behind.  A second [getAllImages] finds the array as
    the first one left it (if the source was pushed, it is now the last
    entry), pushes nothing and returns the same list; so the second
    [getImageUrl] returns what the first returned, changes nothing more, and
    the [src] of the output record is the value the filter saw. *)
Theorem getData_second_call_agrees :
  (forall (imageObj imageObj' : ImageVariantSet) (l : list ImageVariant),
     getAllImages imageObj = Ok (imageObj', l) ->
     resolutions imageObj' = l /\
     getAllImages imageObj' = Ok (imageObj', l)) /\
  (forall (regExpReplace : string -> string -> string -> string -> result string)
          (config : Config) (post post' : RawPost) (keep : bool),
     getData_filter config post = Ok (post', keep) ->
     exists imageSrc,
       getImageUrl config (preview post) (thumbnail post)
       = Ok (preview post', imageSrc) /\
       getImageUrl config (preview post') (thumbnail post')
       = Ok (preview post', imageSrc) /\
       getData_map regExpReplace config post'
       = (title' <- formatTitle regExpReplace config (title post') ;;
          Ok (post',
              {| out_title := title'; out_score := score post';
                 out_thumbnail := thumbnail post'; src := imageSrc;
                 out_gilded := gilded post';
                 out_num_comments := num_comments post';
                 out_subreddit := subreddit post';
                 out_author := author post' |}))).
Proof.
  split.
  - intros imageObj imageObj' l H. split.
    + destruct (getAllImages_Ok _ _ _ H) as (f & li & so & _ & _ & ->).
      reflexivity.
    + exact (getAllImages_again _ _ _ H).
  - intros regExpReplace config post post' keep H.
    destruct (getData_filter_Ok _ _ _ _ H) as (imageSrc & G & G' & Hp & _).
    exists imageSrc. split; [exact G|]. split; [exact G'|].
    unfold getData_map. rewrite G'.
    destruct (formatTitle regExpReplace config (title post')); [|reflexivity].
    cbn [bind]. rewrite Hp. reflexivity.
Qed.

Lemma getData_second_call_agrees_witness :
  let config := Sample.config "image" "high" [] None in
  let post :=
    Sample.post (Some "https://t/1.jpg")
      (Some (Sample.previewOf Sample.imageObj)) in
  let post' :=
    Sample.post (Some "https://t/1.jpg")
      (Some (Sample.previewOf Sample.imageObjAfter)) in
  (getAllImages Sample.imageObj
   = Ok (Sample.imageObjAfter, resolutions Sample.imageObjAfter) /\
   getAllImages Sample.imageObjAfter
   = Ok (Sample.imageObjAfter, resolutions Sample.imageObjAfter)) /\
  (getData_filter config post = Ok (post', true) /\
   exists imageSrc,
     getImageUrl config (preview post) (thumbnail post)
     = Ok (preview post', imageSrc) /\
     getImageUrl config (preview post') (thumbnail post')
     = Ok (preview post', imageSrc) /\
     exists out,
       getData_map Literal.regExpReplace config post' = Ok (post', out) /\
       src out = imageSrc).
Proof.
  intros config post post'. split.
  - split; [reflexivity|].
    exact (proj2 (proj1 getData_second_call_agrees
                    Sample.imageObj Sample.imageObjAfter
                    (resolutions Sample.imageObjAfter) eq_refl)).
  - split; [reflexivity|].
    destruct (proj2 getData_second_call_agrees Literal.regExpReplace
                config post post' true eq_refl)
      as (imageSrc & H1 & H2 & H3).
    exists imageSrc. split; [exact H1|]. split; [exact H2|].
    rewrite H3. eexists. split; reflexivity.
Defined.

(** ** The filter of [getData] *)

(** When [getImageUrl] returns for a post, the post is kept exactly when its
    thumbnail is a string starting with "http" and either the display type is
    not "image" or the selector gave a URL. *)
Lemma getData_filter_keep (config : Config) (post post' : RawPost)
    (keep : bool) :
  getData_filter config post = Ok (post', keep) ->
  keep = true <->
  (exists t, thumbnail post = Some t /\ Js.startsWith t "http" = true) /\
  (displayType config <> "image" \/
   exists preview' u,
     getImageUrl config (preview post) (thumbnail post)
     = Ok (preview', Some u)).
Proof.
  intros H.
  destruct (getData_filter_Ok _ _ _ _ H) as (imageSrc & G & _ & _ & ->).
  rewrite andb_true_iff, orb_true_iff, negb_true_iff, String.eqb_neq.
  split.
  - intros [Ht Hi]. split.
    + destruct (thumbnail post) as [t|]; [|discriminate]. now exists t.
    + destruct Hi as [Hd|Hs]; [now left|right].
      destruct imageSrc as [u|]; [|discriminate].
      now exists (preview post'), u.
  - intros [(t & Ht & Hp) Hi]. split.
    + now rewrite Ht.
    + destruct Hi as [Hd|(pv & u & Hu)]; [now left|right].
      rewrite G in Hu. injection Hu as _ ->. reflexivity.
Qed.

(** A thumbnail "self" is turned away, whatever the rest of the post. *)
Lemma getData_filter_self (config : Config) (post : RawPost) :
  thumbnail post = Some "self" ->
  getData_filter config post = Ok (withPreview post (preview post), false).
Proof.
  intros H. unfold getData_filter, getImageUrl, skipNonImagePost.
  rewrite H. change (Js.indexOf "self" "http" =? -1) with true.
  rewrite andb_false_r. reflexivity.
Qed.

(** Under display type "image", a post without preview is turned away even
    with a thumbnail that starts with "http". *)
Lemma getData_filter_no_preview (config : Config) (post : RawPost)
    (t : string) :
  displayType config = "image" -> preview post = None ->
  thumbnail post = Some t ->
  getData_filter config post = Ok (withPreview post None, false).
Proof.
  intros Hd Hp Ht. unfold getData_filter, getImageUrl, skipNonImagePost.
  rewrite Hd, Hp, Ht. cbn [negb andb bind]. cbn. now rewrite andb_false_r.
Qed.

(** C4, at the input the helper does not survive.  The thumbnail starts
    with "http" and the display type is "list", so both conditions of the
    eligibility rule hold; the post's first image has an empty [resolutions]
    array.  The
    filter callback calls [getImageUrl] whatever the display type, the call
    raises, and [getData] ends in its catch block: the post is not output,
    nor is any other post of the page. *)
Theorem getData_filter_empty_resolutions_throws :
  let config := Sample.config "list" "high" [] None in
  let post :=
    Sample.post (Some "https://t/tiny.jpg")
      (Some (Sample.previewOf Sample.tinyImageObj)) in
  let response :=
    {| ok := true; status := 200; statusText := "OK";
       json := Ok (Some {| body_data :=
                             Some {| children :=
                                       Some [{| post_data := post |}] |} |})
    |} in
  Js.startsWith "https://t/tiny.jpg" "http" = true /\
  displayType config <> "image" /\
  getData_filter config post = Throw TypeError /\
  forall regExpReplace,
    getData regExpReplace config (FetchResolved response)
    = Fetch (getUrl config) :: getData_catch TypeError.
Proof.
  cbv zeta. split; [reflexivity|]. split; [discriminate|].
  split; reflexivity.
Qed.

(** ** [formatTitle] *)

Lemma fold_left_Throw {A S : Type} (f : S -> A -> result S) (l : list A)
    (e : JsError) :
  fold_left (fun acc x => s <- acc ;; f s x) l (Throw e) = Throw e.
Proof. induction l as [|x l IH]; [reflexivity|exact IH]. Qed.

(** The [forEach] loop is the left fold that threads the title, and the
    exception if there is one. *)
Lemma forEach_fold_left {A S : Type} (f : S -> A -> result S) (l : list A)
    (s : S) :
  forEach f l s = fold_left (fun acc x => s' <- acc ;; f s' x) l (Ok s).
Proof.
  revert s. induction l as [|x l IH]; intros s; [reflexivity|].
  cbn [forEach fold_left bind].
  destruct (f s x) as [s'|e]; cbn [bind].
  - apply IH.
  - symmetry. apply fold_left_Throw.
Qed.

Lemma fold_left_pointwise {A B : Type} (f g : B -> A -> B) (l : list A)
    (b : B) :
  (forall acc x, f acc x = g acc x) -> fold_left f l b = fold_left g l b.
Proof.
  intros H. revert b. induction l as [|x l IH]; intros b; [reflexivity|].
  cbn [fold_left]. rewrite H. apply IH.
Qed.

Lemma applyModifier_flags
    (regExpReplace : string -> string -> string -> string -> result string)
    (title : string) (rule : TitleRule) :
  applyModifier regExpReplace title rule
  = regExpReplace (toReplace rule) (ruleFlags rule) title (replacement rule).
Proof.
  unfold applyModifier, ruleFlags.
  destruct (caseSensitive rule) as [[|]|]; reflexivity.
Qed.

(** C6.  [formatTitle] applies the rules as a left fold over the rule list:
    each rule is a global regular-expression replace on the title the rule
    before it produced, with the [i] flag exactly when the rule has
    [caseSensitive: false] (a rule without the property is case-sensitive);
    the truncation step follows.  With the rule fox -> cat,
    case-insensitive, "The Fox jumps" becomes "The cat jumps". *)
Theorem formatTitle_left_fold :
  (forall (regExpReplace : string -> string -> string -> string -> result string)
          (config : Config) (title : string),
     formatTitle regExpReplace config title
     = (title' <-
          fold_left
            (fun acc rule =>
               current <- acc ;;
               regExpReplace (toReplace rule) (ruleFlags rule) current
                 (replacement rule))
            (titleReplacements config) (Ok title) ;;
        match characterLimit config with
        | Some limit =>
            let cut := Js.trim (Js.slice0 title' limit) in
            if Nat.eqb (String.length cut) (String.length title)
            then Ok cut else Ok (cut ++ "...")
        | None => Ok title'
        end)) /\
  (forall rule,
     ruleFlags rule = "gi" <-> caseSensitive rule = Some false) /\
  (forall rule,
     ruleFlags rule = "g" <-> caseSensitive rule <> Some false) /\
  formatTitle Literal.regExpReplace
    (Sample.config "list" "high" [Sample.foxRule] None) "The Fox jumps"
  = Ok "The cat jumps".
Proof.
  split; [|split; [|split]].
  - intros regExpReplace config title. unfold formatTitle.
    rewrite forEach_fold_left.
    rewrite (fold_left_pointwise _
               (fun acc rule =>
                  current <- acc ;;
                  regExpReplace (toReplace rule) (ruleFlags rule) current
                    (replacement rule))).
    + destruct (fold_left _ _ _) as [t|e]; [|reflexivity]. cbn [bind].
      destruct (characterLimit config) as [limit|]; [|reflexivity].
      cbv zeta. destruct (Nat.eqb _ _); reflexivity.
    + intros [current|e] rule; [apply applyModifier_flags|reflexivity].
  - intros rule. unfold ruleFlags.
    destruct (caseSensitive rule) as [[|]|]; split; congruence.
  - intros rule. unfold ruleFlags.
    destruct (caseSensitive rule) as [[|]|]; split; congruence.
  - reflexivity.
Qed.

(** Without rules the title is cut to [limit] code units and trimmed, and
    the marker is added exactly when the length has changed. *)
Lemma formatTitle_no_rules
    (regExpReplace : string -> string -> string -> string -> result string)
    (config : Config) (title : string) (limit : Z) :
  titleReplacements config = [] ->
  characterLimit config = Some limit ->
  let cut := Js.trim (Js.slice0 title limit) in
  formatTitle regExpReplace config title
  = Ok (if Nat.eqb (String.length cut) (String.length title)
        then cut else cut ++ "...").
Proof.
  intros Hr Hl. unfold formatTitle. rewrite Hr, Hl. cbn [forEach bind].
  cbv zeta. destruct (Nat.eqb _ _); reflexivity.
Qed.

Lemma formatTitle_no_rules_no_limit
    (regExpReplace : string -> string -> string -> string -> result string)
    (config : Config) (title : string) :
  titleReplacements config = [] ->
  characterLimit config = None ->
  formatTitle regExpReplace config title = Ok title.
Proof.
  intros Hr Hl. unfold formatTitle. rewrite Hr, Hl. reflexivity.
Qed.

Example formatTitle_Hi :
  formatTitle Literal.regExpReplace (Sample.config "list" "high" [] (Some 2))
    "Hi" = Ok "Hi".
Proof. reflexivity. Qed.

Example formatTitle_Hello_World :
  formatTitle Literal.regExpReplace (Sample.config "list" "high" [] (Some 5))
    "Hello World" = Ok "Hello...".
Proof. reflexivity. Qed.

(** C5, at an input where the helper departs from it.  The rule
    Hello -> Hi turns the title "Hello" into "Hi", which has exactly
    [limit = 2] code units and loses nothing to the cut or the trim; the
    specification returns it without the marker.  [formatTitle] takes
    [originalLength] before the rules run (5, the length of "Hello"),
    compares the cut title's length 2 with it, and appends the marker. *)
Theorem formatTitle_marker_without_truncation :
  let config :=
    Sample.config "list" "high" [Sample.shortenRule] (Some 2) in
  forEach (applyModifier Literal.regExpReplace) (titleReplacements config)
    "Hello" = Ok "Hi" /\
  String.length "Hi" = 2%nat /\
  Js.trim (Js.slice0 "Hi" 2) = "Hi" /\
  formatTitle Literal.regExpReplace config "Hello" = Ok "Hi...".
Proof. cbv zeta. repeat split. Qed.

(** ** [getData] on a body without posts *)

(** C8.  When the request succeeded ([response.ok]) and the decoded body has
    no [data.children], [getData] logs and sends the guidance message about
    the subreddit's spelling and private subreddits, as the [message] of a
    REDDIT_POSTS_ERROR notification, and does nothing else: no exception is
    logged and no REDDIT_POSTS notification is sent.  The message is neither
    the one of the catch block nor one of the status messages. *)
Theorem getData_no_children
    (regExpReplace : string -> string -> string -> string -> result string)
    (config : Config) (response : Response) (body : option Body) :
  ok response = true ->
  json response = Ok body ->
  bodyChildren body = None ->
  let guidance :=
    "No posts returned. Ensure the subreddit name is spelled correctly. Private subreddits are also inaccessible." in
  getData regExpReplace config (FetchResolved response)
  = [Fetch (getUrl config);
     ConsoleLog guidance;
     SocketNotification "REDDIT_POSTS_ERROR" (ErrorPayload guidance)] /\
  (forall posts,
     ~ In (SocketNotification "REDDIT_POSTS" (PostsPayload posts))
          (getData regExpReplace config (FetchResolved response))) /\
  guidance <> "An error occurred while fetching Reddit data." /\
  (forall code, guidance <> "Error fetching Reddit data: " ++ code).
Proof.
  intros Hok Hjson Hbody guidance.
  assert (E : getData regExpReplace config (FetchResolved response)
              = [Fetch (getUrl config); ConsoleLog guidance;
                 SocketNotification "REDDIT_POSTS_ERROR"
                   (ErrorPayload guidance)]).
  { unfold getData. rewrite Hok, Hjson, Hbody. reflexivity. }
  split; [exact E|]. split; [|split].
  - intros posts. rewrite E. cbn [In].
    intros [H|[H|[H|[]]]]; discriminate.
  - discriminate.
  - intros code. discriminate.
Qed.

Lemma getData_no_children_witness :
  let response :=
    {| ok := true; status := 200; statusText := "OK";
       json := Ok (Some {| body_data := None |}) |} in
  let guidance :=
    "No posts returned. Ensure the subreddit name is spelled correctly. Private subreddits are also inaccessible." in
  getData Literal.regExpReplace (Sample.config "list" "high" [] None)
    (FetchResolved response)
  = [Fetch "https://www.reddit.com/r/pics/hot/.json?raw_json=1&limit=10";
     ConsoleLog guidance;
     SocketNotification "REDDIT_POSTS_ERROR" (ErrorPayload guidance)].
Proof.
  intros response guidance.
  exact (proj1 (getData_no_children Literal.regExpReplace
                  (Sample.config "list" "high" [] None) response
                  (Some {| body_data := None |})
                  eq_refl eq_refl eq_refl)).
Defined.

(** ** One page, end to end *)

(** Two posts under display type "list", no rules, no limit: the first has a
    thumbnail and a full preview, the second the thumbnail "default".  One
    record comes out, for the first post, with the title untouched and the
    source picture as [src] (quality "high", three candidates). *)
Example getData_two_posts :
  let config := Sample.config "list" "high" [] None in
  let first :=
    Sample.post (Some "https://t/1.jpg")
      (Some (Sample.previewOf Sample.imageObj)) in
  let second := Sample.post (Some "default") None in
  let response :=
    {| ok := true; status := 200; statusText := "OK";
       json := Ok (Some {| body_data :=
                             Some {| children :=
                                       Some [{| post_data := first |};
                                             {| post_data := second |}] |} |})
    |} in
  getData Literal.regExpReplace config (FetchResolved response)
  = [Fetch "https://www.reddit.com/r/pics/hot/.json?raw_json=1&limit=10";
     SocketNotification "REDDIT_POSTS"
       (PostsPayload
          [{| out_title := "A picture"; out_score := 12;
              out_thumbnail := Some "https://t/1.jpg";
              src := Some "https://i/full"; out_gilded := 0;
              out_num_comments := 3; out_subreddit := "pics";
              out_author := "someone" |}])].
Proof. reflexivity. Qed.

(** * Further properties of the helper *)

(** ** [getAllImages]: when it raises, and how its result ends *)

Lemma push_not_nil {A : Type} (l : list A) (x : A) : Js.push l x <> [].
Proof. unfold Js.push. destruct l; discriminate. Qed.

Lemma getAllImages_Throw (imageObj : ImageVariantSet) (e : JsError) :
  getAllImages imageObj = Throw e ->
  e = TypeError /\ (source imageObj = None \/ resolutions imageObj = []).
Proof.
  destruct imageObj as [so rs]. unfold getAllImages. cbn [resolutions source].
  destruct (Js.pop rs) as [front [lastImage|]] eqn:P.
  - destruct so as [source_|].
    + discriminate.
    + intros [= <-]. split; [reflexivity|now left].
  - intros [= <-]. split; [reflexivity|right]. exact (pop_none _ _ P).
Qed.

(** [getAllImages] raises exactly when the image object has no source or an
    empty [resolutions] array, and what it raises is a TypeError. *)
Theorem getAllImages_raises (imageObj : ImageVariantSet) :
  (forall e, getAllImages imageObj = Throw e -> e = TypeError) /\
  (getAllImages imageObj = Throw TypeError <->
   source imageObj = None \/ resolutions imageObj = []).
Proof.
  split; [intros e H; exact (proj1 (getAllImages_Throw _ _ H))|].
  split; [intros H; exact (proj2 (getAllImages_Throw _ _ H))|].
  destruct imageObj as [so rs]. cbn [source resolutions].
  intros [->| ->].
  - unfold getAllImages. cbn [resolutions source].
    destruct (Js.pop rs) as [front [lastImage|]]; reflexivity.
  - reflexivity.
Qed.

(** The list [getAllImages] returns always ends with an image of the
    source's dimensions, and it is [resolutions] as it was, or [resolutions]
    followed by the source. *)
Theorem getAllImages_ends_full_size
    (imageObj imageObj' : ImageVariantSet) (l : list ImageVariant) :
  getAllImages imageObj = Ok (imageObj', l) ->
  exists source_ front lastImage,
    source imageObj = Some source_ /\
    l = Js.push front lastImage /\
    sameSize lastImage source_ = true /\
    (l = resolutions imageObj \/
     l = Js.push (resolutions imageObj) source_).
Proof.
  intros H.
  destruct (getAllImages_Ok _ _ _ H)
    as (front & lastImage & source_ & -> & -> & _).
  cbn [source resolutions].
  destruct (sameSize lastImage source_) eqn:S.
  - exists source_, front, lastImage. auto.
  - exists source_, (Js.push front lastImage), source_.
    split; [reflexivity|]. split; [reflexivity|].
    split; [apply sameSize_refl|now right].
Qed.

Lemma getAllImages_ends_full_size_witness :
  exists source_ front lastImage,
    source Sample.imageObj = Some source_ /\
    resolutions Sample.imageObjAfter = Js.push front lastImage /\
    sameSize lastImage source_ = true /\
    (resolutions Sample.imageObjAfter = resolutions Sample.imageObj \/
     resolutions Sample.imageObjAfter
     = Js.push (resolutions Sample.imageObj) source_).
Proof.
  exact (getAllImages_ends_full_size Sample.imageObj Sample.imageObjAfter
           (resolutions Sample.imageObjAfter) eq_refl).
Defined.

(** ** [getImageUrl]: where the URL comes from *)

Lemma get_In {A : Type} (l : list A) (i : Z) (x : A) :
  Js.get l i = Some x -> In x l.
Proof.
  unfold Js.get. destruct (i <? 0); [discriminate|]. apply nth_error_In.
Qed.

(** A URL returned by [getImageUrl] is the URL of one of the [resolutions]
    of the post's first image, or of its source. *)
Theorem getImageUrl_url_of_first_image
    (config : Config) (preview preview' : option PreviewData)
    (thumbnail : option string) (u : string) :
  getImageUrl config preview thumbnail = Ok (preview', Some u) ->
  exists p first rest,
    preview = Some p /\ images p = Some (first :: rest) /\
    In u (urlsOf first).
Proof.
  unfold getImageUrl.
  destruct (skipNonImagePost preview thumbnail) as [[|]|e];
    cbn [bind]; try discriminate.
  destruct preview as [p|]; [|discriminate].
  destruct (images p) as [[|first rest]|] eqn:I; try discriminate.
  destruct (getAllImages first) as [[first' l]|] eqn:A; [|discriminate].
  cbn [bind].
  destruct (Js.get l _) as [image|] eqn:G; [|discriminate].
  intros [= _ <-]. exists p, first, rest.
  split; [reflexivity|]. split; [exact I|].
  apply get_In in G.
  destruct (getAllImages_Ok _ _ _ A)
    as (front & lastImage & source_ & -> & -> & _).
  unfold urlsOf. cbn [source resolutions]. apply in_or_app.
  destruct (sameSize lastImage source_).
  - left. now apply in_map.
  - unfold Js.push in G at 1. apply in_app_or in G as [G|[<-|[]]].
    + left. now apply in_map.
    + right. now left.
Qed.

Lemma getImageUrl_url_of_first_image_witness :
  exists p first rest,
    Some (Sample.previewOf Sample.imageObj) = Some p /\
    images p = Some (first :: rest) /\
    In "https://i/full" (urlsOf first).
Proof.
  exact (getImageUrl_url_of_first_image
           (Sample.config "image" "high" [] None)
           (Some (Sample.previewOf Sample.imageObj))
           (Some (Sample.previewOf Sample.imageObjAfter))
           (Some "https://t/1.jpg") "https://i/full" eq_refl).
Defined.

(** ** The index as a function of the quality *)

(** A higher quality never selects an earlier candidate. *)
Theorem imageIndex_monotone (q1 q2 : string) (r1 r2 n : Z) :
  rankOf q1 = Some r1 -> rankOf q2 = Some r2 ->
  r1 <= r2 -> 0 <= n ->
  imageIndex q1 n <= imageIndex q2 n.
Proof.
  intros H1 H2 Hr Hn.
  destruct (Z_le_gt_dec n 5) as [Hs|Hl].
  - rewrite (imageIndex_floor _ _ _ H1 Hs), (imageIndex_floor _ _ _ H2 Hs).
    apply Z.div_le_mono; nia.
  - rewrite (imageIndex_round _ _ _ H1), (imageIndex_round _ _ _ H2) by lia.
    apply Z.div_le_mono; nia.
Qed.

Lemma imageIndex_monotone_witness :
  imageIndex "mid" 7 <= imageIndex "mid-high" 7.
Proof.
  apply (imageIndex_monotone "mid" "mid-high" 1 2 7);
    [reflexivity|reflexivity|lia|lia].
Defined.

(** With quality "high" the last candidate (the full-size image) is the one
    selected exactly for lists of 1, 2, 3, 4 or 6 candidates; for 5 and for
    7 or more an earlier one is. *)
Theorem imageIndex_high_last (n : Z) :
  1 <= n ->
  (imageIndex "high" n = n - 1 <-> n <= 4 \/ n = 6).
Proof.
  intros Hn.
  destruct (Z_le_gt_dec n 5) as [Hs|Hl].
  - rewrite (imageIndex_floor "high" 3 n eq_refl Hs).
    pose proof (Z.mul_div_le (3 * n) 4).
    pose proof (Z.mul_succ_div_gt (3 * n) 4). lia.
  - rewrite (imageIndex_round "high" 3 n eq_refl) by lia.
    pose proof (Z.mul_div_le (3 * n + 2) 4).
    pose proof (Z.mul_succ_div_gt (3 * n + 2) 4). lia.
Qed.

Lemma imageIndex_high_last_witness :
  imageIndex "high" 7 <> 7 - 1 /\ imageIndex "high" 6 = 6 - 1.
Proof.
  split.
  - intros H. apply (imageIndex_high_last 7) in H; lia.
  - apply (imageIndex_high_last 6); lia.
Defined.

Lemma arrayIndexOf_not_In (l : list string) (x : string) :
  ~ In x l -> Js.arrayIndexOf l x = -1.
Proof.
  induction l as [|y l IH]; intros H; [reflexivity|].
  cbn [Js.arrayIndexOf].
  destruct (String.eqb y x) eqn:E.
  - apply String.eqb_eq in E. exfalso. apply H. now left.
  - rewrite IH; [reflexivity|]. intros C. apply H. now right.
Qed.

Lemma imageIndex_unknown_quality (quality : string) (n : Z) :
  ~ In quality qualityIndex -> 1 <= n -> imageIndex quality n < 0.
Proof.
  intros Hq Hn. unfold imageIndex.
  rewrite (arrayIndexOf_not_In _ _ Hq).
  destruct (n >? 5) eqn:E.
  - rewrite round_quarters. apply Z.div_lt_upper_bound; lia.
  - rewrite floor_quarters. apply Z.div_lt_upper_bound; lia.
Qed.

(** With an [imageQuality] that is not on the scale, [getImageUrl] raises a
    TypeError on every post [skipNonImagePost] lets through: the index is
    negative and [allPostImages[imageIndex]] is undefined. *)
Theorem getImageUrl_unknown_quality
    (config : Config) (preview : option PreviewData)
    (thumbnail : option string) :
  ~ In (imageQuality config) qualityIndex ->
  skipNonImagePost preview thumbnail = Ok false ->
  getImageUrl config preview thumbnail = Throw TypeError.
Proof.
  intros Hq Hskip.
  destruct (skipNonImagePost_false _ _ Hskip)
    as (p & first & rest & source_ & -> & I & S).
  unfold getImageUrl. rewrite Hskip. cbn [bind]. rewrite I.
  destruct (getAllImages first) as [[first' l]|e] eqn:A; cbn [bind].
  - assert (Hn : 1 <= Z.of_nat (List.length l)).
    { pose proof (getAllImages_nonempty _ _ _ A).
      destruct l; [congruence|]. cbn [List.length]. lia. }
    pose proof (imageIndex_unknown_quality _ _ Hq Hn) as Hneg.
    unfold Js.get. apply Z.ltb_lt in Hneg. rewrite Hneg. reflexivity.
  - now destruct (getAllImages_Throw _ _ A) as [-> _].
Qed.

Lemma getImageUrl_unknown_quality_witness :
  getImageUrl (Sample.config "image" "best" [] None)
    (Some (Sample.previewOf Sample.imageObj)) (Some "https://t/1.jpg")
  = Throw TypeError.
Proof.
  apply getImageUrl_unknown_quality; [|reflexivity].
  cbn. intros [H|[H|[H|[H|[]]]]]; discriminate.
Defined.

(** Quality "low" returns the URL of the first entry of [resolutions]. *)
Theorem getImageUrl_low_is_first
    (config : Config) (p : PreviewData) (thumbnail : option string)
    (first : ImageVariantSet) (rest : list ImageVariantSet)
    (x : ImageVariant) (xs : list ImageVariant) :
  imageQuality config = "low" ->
  skipNonImagePost (Some p) thumbnail = Ok false ->
  images p = Some (first :: rest) ->
  resolutions first = x :: xs ->
  exists preview',
    getImageUrl config (Some p) thumbnail = Ok (preview', Some (url x)).
Proof.
  intros Hq Hskip I R.
  destruct (skipNonImagePost_false _ _ Hskip)
    as (p0 & first0 & rest0 & source_ & [= <-] & I0 & S).
  rewrite I in I0. injection I0 as <- <-.
  destruct (exists_last (l := x :: xs)) as (front & lastImage & E);
    [discriminate|].
  destruct first as [so rs]. cbn [source resolutions] in S, R. subst so rs.
  pose proof (getAllImages_push front lastImage source_) as A.
  cbv zeta in A. unfold Js.push in A at 1. rewrite <- E in A.
  unfold getImageUrl. rewrite Hskip. cbn [bind]. rewrite I, A. cbn [bind].
  rewrite Hq.
  assert (Hi : forall n, imageIndex "low" n = 0).
  { intros n. unfold imageIndex. change (Js.arrayIndexOf qualityIndex "low") with 0.
    destruct (n >? 5); [rewrite round_quarters|rewrite floor_quarters];
      reflexivity. }
  rewrite Hi.
  assert (Hg : Js.get (if sameSize lastImage source_
                       then Js.push front lastImage
                       else Js.push (Js.push front lastImage) source_) 0
               = Some x).
  { unfold Js.push. rewrite <- E. destruct (sameSize lastImage source_);
      reflexivity. }
  rewrite Hg. eexists. reflexivity.
Qed.

Lemma getImageUrl_low_is_first_witness :
  exists preview',
    getImageUrl (Sample.config "image" "low" [] None)
      (Some (Sample.previewOf Sample.imageObj)) (Some "https://t/1.jpg")
    = Ok (preview', Some (url Sample.small)).
Proof.
  exact (getImageUrl_low_is_first (Sample.config "image" "low" [] None)
           (Sample.previewOf Sample.imageObj) (Some "https://t/1.jpg")
           Sample.imageObj [] Sample.small [Sample.large]
           eq_refl eq_refl eq_refl eq_refl).
Defined.

(** ** When [getImageUrl] raises *)

Lemma indexOf_found (s pat : string) :
  (Js.indexOf s pat =? -1) = false -> contains s pat.
Proof.
  unfold Js.indexOf. destruct (String.index 0 pat s) as [k|] eqn:E.
  - intros _. apply (substring_contains k). now apply (index_correct1 0).
  - discriminate.
Qed.

(** With a quality of the scale and a string thumbnail, [getImageUrl] raises
    exactly on a post that has a preview and "http" in its thumbnail and
    whose [images] array is empty, or whose first image has a source and an
    empty [resolutions] array; it then raises a TypeError.  On every other
    post it returns. *)
Theorem getImageUrl_raises
    (config : Config) (preview : option PreviewData) (thumbnail : string)
    (r : Z) :
  rankOf (imageQuality config) = Some r ->
  (forall e,
     getImageUrl config preview (Some thumbnail) = Throw e -> e = TypeError) /\
  (getImageUrl config preview (Some thumbnail) = Throw TypeError <->
   exists p,
     preview = Some p /\ contains thumbnail "http" /\
     (images p = Some [] \/
      exists first rest,
        images p = Some (first :: rest) /\ source first <> None /\
        resolutions first = [])).
Proof.
  intros Hr.
  assert (Hnot : (Js.indexOf thumbnail "http" =? -1) = true ->
                 ~ contains thumbnail "http").
  { apply indexOf_contains. discriminate. }
  unfold getImageUrl, skipNonImagePost.
  destruct (Js.indexOf thumbnail "http" =? -1) eqn:E.
  - rewrite andb_false_r. cbn [negb bind]. split; [discriminate|].
    split; [discriminate|]. intros (p & _ & C & _). now apply Hnot in C.
  - apply indexOf_found in E.
    destruct preview as [p|]; cbn [negb andb bind].
    2:{ split; [discriminate|]. split; [discriminate|].
        intros (p & [=] & _). }
    destruct (images p) as [[|first rest]|] eqn:I; cbn [bind].
    + split; [now intros e [= <-]|]. split; [|reflexivity].
      intros _. exists p. split; [reflexivity|]. split; [exact E|].
      left. exact I.
    + destruct (source first) as [source_|] eqn:S; cbn [bind].
      * destruct (getAllImages first) as [[first' l]|e0] eqn:A; cbn [bind].
        -- assert (Hn : 1 <= Z.of_nat (List.length l)).
           { pose proof (getAllImages_nonempty _ _ _ A).
             destruct l; [congruence|]. cbn [List.length]. lia. }
           destruct (get_in_range l
                       (imageIndex (imageQuality config)
                          (Z.of_nat (List.length l))))
             as [image G]; [now apply (imageIndex_range _ r)|].
           rewrite G. split; [discriminate|]. split; [discriminate|].
           intros (p0 & [= <-] & _ & [C|(f & rs & C & _ & R)]);
             [congruence|].
           rewrite I in C. injection C as <- <-.
           destruct (getAllImages_Ok _ _ _ A) as (fr & li & so & -> & _).
           cbn [resolutions] in R. now apply push_not_nil in R.
        -- destruct (getAllImages_Throw _ _ A) as [-> [C|R]]; [congruence|].
           split; [now intros e [= <-]|]. split; [|reflexivity].
           intros _. exists p. split; [reflexivity|]. split; [exact E|].
           right. exists first, rest. rewrite S. split; [exact I|].
           split; [discriminate|exact R].
      * split; [discriminate|]. split; [discriminate|].
        intros (p0 & [= <-] & _ & [C|(f & rs & C & N & _)]); [congruence|].
        rewrite I in C. injection C as <- <-. congruence.
    + split; [discriminate|]. split; [discriminate|].
      intros (p0 & [= <-] & _ & [C|(f & rs & C & _)]); congruence.
Qed.

Lemma getImageUrl_raises_witness :
  getImageUrl (Sample.config "image" "mid" [] None)
    (Some {| images := Some [] |}) (Some "https://t/1.jpg")
  = Throw TypeError.
Proof.
  apply (proj2 (getImageUrl_raises (Sample.config "image" "mid" [] None)
                  (Some {| images := Some [] |}) "https://t/1.jpg" 1
                  eq_refl)).
  exists {| images := Some [] |}. split; [reflexivity|].
  split; [exists "", "s://t/1.jpg"; reflexivity|now left].
Defined.

(** ** The page as a whole: [filter] then [map] *)

Lemma getImageUrl_Throw (config : Config) (preview : option PreviewData)
    (thumbnail : option string) (e : JsError) :
  getImageUrl config preview thumbnail = Throw e -> e = TypeError.
Proof.
  unfold getImageUrl, skipNonImagePost.
  destruct thumbnail as [t|]; [|now intros [= <-]].
  destruct preview as [p|]; cbn [negb andb bind]; [|discriminate].
  destruct (negb (Js.indexOf t "http" =? -1)); cbn [bind]; [|discriminate].
  destruct (images p) as [[|first rest]|]; cbn [bind];
    [now intros [= <-]| |discriminate].
  destruct (source first); cbn [bind]; [|discriminate].
  destruct (getAllImages first) as [[first' l]|e0] eqn:A; cbn [bind].
  - destruct (Js.get l _); [discriminate|now intros [= <-]].
  - intros [= <-]. exact (proj1 (getAllImages_Throw _ _ A)).
Qed.

Lemma getData_filter_Throw (config : Config) (post : RawPost) (e : JsError) :
  getData_filter config post = Throw e -> e = TypeError.
Proof.
  unfold getData_filter.
  destruct (getImageUrl config (preview post) (thumbnail post))
    as [[preview' imageSrc]|e0] eqn:G; cbn [bind]; [discriminate|].
  intros [= <-]. exact (getImageUrl_Throw _ _ _ _ G).
Qed.

(** The survivors of the filter are the posts [keeps] accepts, in their
    order, each as its callback left it. *)
Lemma arrayFilter_Forall2 (config : Config) (posts survivors : list RawPost) :
  arrayFilter (getData_filter config) posts = Ok survivors ->
  Forall2 (fun post post' => getData_filter config post = Ok (post', true))
    (List.filter (keeps config) posts) survivors.
Proof.
  revert survivors. induction posts as [|post posts IH]; intros survivors H.
  - injection H as <-. constructor.
  - cbn [arrayFilter] in H. cbn [List.filter]. unfold keeps at 1.
    destruct (getData_filter config post) as [[post' keep]|] eqn:F;
      [|discriminate].
    cbn [bind] in H.
    destruct (arrayFilter (getData_filter config) posts) as [rest|];
      [|discriminate].
    cbn [bind] in H. injection H as <-.
    specialize (IH rest eq_refl).
    destruct keep; [constructor; assumption|exact IH].
Qed.

Lemma arrayMap_Forall2 {A B : Type} (f : A -> result (A * B))
    (l : list A) (outs : list B) :
  arrayMap f l = Ok outs ->
  Forall2 (fun x y => exists x', f x = Ok (x', y)) l outs.
Proof.
  revert outs. induction l as [|x l IH]; intros outs H.
  - injection H as <-. constructor.
  - cbn [arrayMap] in H.
    destruct (f x) as [[x' y]|] eqn:F; [|discriminate].
    cbn [bind] in H.
    destruct (arrayMap f l) as [rest|]; [|discriminate].
    cbn [bind] in H. injection H as <-.
    constructor; [now exists x'|]. now apply IH.
Qed.

Lemma Forall2_compose {A B C : Type} (R : A -> B -> Prop) (S : B -> C -> Prop)
    (l1 : list A) (l2 : list B) (l3 : list C) :
  Forall2 R l1 l2 -> Forall2 S l2 l3 ->
  Forall2 (fun a c => exists b, R a b /\ S b c) l1 l3.
Proof.
  intros H. revert l3. induction H as [|a b l1 l2 Hab H IH]; intros l3 H'.
  - inversion H'. constructor.
  - inversion H' as [|b' c l2' l3' Hbc H'' E1 E2]; subst.
    constructor; [now exists b|]. now apply IH.
Qed.

(** What one kept post becomes. *)
Lemma getData_filter_map_record
    (regExpReplace : string -> string -> string -> string -> result string)
    (config : Config) (post post' post'' : RawPost) (out : OutputPost) :
  getData_filter config post = Ok (post', true) ->
  getData_map regExpReplace config post' = Ok (post'', out) ->
  recordOf regExpReplace config post out.
Proof.
  intros F M.
  destruct (getData_filter_Ok _ _ _ _ F) as (imageSrc & G & G' & Hp & _).
  unfold getData_map in M.
  destruct (formatTitle regExpReplace config (title post')) as [t|] eqn:T;
    [|discriminate].
  cbn [bind] in M. rewrite G' in M. cbn [bind] in M.
  injection M as _ <-. unfold recordOf.
  cbn [out_title src out_score out_thumbnail out_gilded out_num_comments
       out_subreddit out_author].
  rewrite Hp in T |- *. cbn [withPreview title score thumbnail gilded
                             num_comments subreddit author] in T |- *.
  split; [exact T|]. split; [now exists (preview post')|].
  repeat split.
Qed.

Lemma assemble_Forall2
    (regExpReplace : string -> string -> string -> string -> result string)
    (config : Config) (children : list Child) (outs : list OutputPost) :
  assemble regExpReplace config children = Ok outs ->
  Forall2 (fun post out =>
             keeps config post = true /\
             recordOf regExpReplace config post out)
    (List.filter (keeps config) (map post_data children)) outs.
Proof.
  unfold assemble. intros H.
  destruct (arrayFilter (getData_filter config) (map post_data children))
    as [survivors|] eqn:F; [|discriminate].
  cbn [bind] in H.
  apply arrayFilter_Forall2 in F. apply arrayMap_Forall2 in H.
  pose proof (Forall2_compose _ _ _ _ _ F H) as C.
  revert C. apply Forall2_impl.
  intros post out (post' & Fp & post'' & Mp). split.
  - unfold keeps. now rewrite Fp.
  - exact (getData_filter_map_record _ _ _ _ _ _ Fp Mp).
Qed.

(** When [assemble] returns, its records are those of the posts the filter
    keeps, one for one and in the order of the page: for each, the title
    formatted, the image URL selected, and the other fields copied. *)
Theorem assemble_records
    (regExpReplace : string -> string -> string -> string -> result string)
    (config : Config) (children : list Child) (outs : list OutputPost) :
  assemble regExpReplace config children = Ok outs ->
  Forall2 (recordOf regExpReplace config)
    (List.filter (keeps config) (map post_data children)) outs /\
  (List.length outs <= List.length children)%nat.
Proof.
  intros H. apply assemble_Forall2 in H. split.
  - revert H. apply Forall2_impl. now intros post out [_ R].
  - apply Forall2_length in H. rewrite <- H.
    rewrite <- (length_map post_data children). apply filter_length_le.
Qed.

Lemma assemble_records_witness :
  let config := Sample.config "list" "high" [] None in
  let first :=
    Sample.post (Some "https://t/1.jpg")
      (Some (Sample.previewOf Sample.imageObj)) in
  let second := Sample.post (Some "default") None in
  exists outs,
    assemble Literal.regExpReplace config
      [{| post_data := first |}; {| post_data := second |}] = Ok outs /\
    Forall2 (recordOf Literal.regExpReplace config) [first] outs.
Proof.
  intros config first second. eexists. split; [reflexivity|].
  exact (proj1 (assemble_records Literal.regExpReplace config
                  [{| post_data := first |}; {| post_data := second |}]
                  _ eq_refl)).
Defined.

Lemma Forall2_right {A B : Type} (R : A -> B -> Prop) (l1 : list A)
    (l2 : list B) :
  Forall2 R l1 l2 -> Forall (fun y => exists x, R x y) l2.
Proof.
  induction 1 as [|x y l1 l2 Hxy H IH]; constructor; [now exists x|exact IH].
Qed.

(** Every record [assemble] returns has a string thumbnail that starts with
    "http"; under display type "image" it also has an image URL. *)
Theorem assemble_records_valid
    (regExpReplace : string -> string -> string -> string -> result string)
    (config : Config) (children : list Child) (outs : list OutputPost) :
  assemble regExpReplace config children = Ok outs ->
  Forall (fun out =>
            (exists t, out_thumbnail out = Some t /\
                       Js.startsWith t "http" = true) /\
            (displayType config = "image" -> src out <> None)) outs.
Proof.
  intros H. apply assemble_Forall2 in H. apply Forall2_right in H.
  revert H. apply Forall_impl.
  intros out (post & K & _ & (preview' & G) & _ & Ht & _).
  unfold keeps in K.
  destruct (getData_filter config post) as [[post' keep]|] eqn:F;
    [|discriminate].
  subst keep.
  destruct (getData_filter_Ok _ _ _ _ F) as (imageSrc & G0 & _ & _ & Hk).
  rewrite G in G0. injection G0 as _ ->.
  symmetry in Hk. apply andb_true_iff in Hk as [Hthumb Himg]. split.
  - rewrite Ht. destruct (thumbnail post) as [t|]; [|discriminate].
    now exists t.
  - intros Hd. rewrite Hd in Himg. cbn in Himg.
    destruct imageSrc; [discriminate|discriminate].
Qed.

Lemma assemble_records_valid_witness :
  let config := Sample.config "image" "high" [] None in
  let first :=
    Sample.post (Some "https://t/1.jpg")
      (Some (Sample.previewOf Sample.imageObj)) in
  let second := Sample.post (Some "https://t/2.jpg") None in
  exists outs,
    assemble Literal.regExpReplace config
      [{| post_data := first |}; {| post_data := second |}] = Ok outs /\
    List.length outs = 1%nat /\
    Forall (fun out =>
              (exists t, out_thumbnail out = Some t /\
                         Js.startsWith t "http" = true) /\
              (displayType config = "image" -> src out <> None)) outs.
Proof.
  intros config first second. eexists. split; [reflexivity|].
  split; [reflexivity|].
  exact (assemble_records_valid Literal.regExpReplace config
           [{| post_data := first |}; {| post_data := second |}] _ eq_refl).
Defined.

Lemma arrayFilter_Throw (config : Config) (posts : list RawPost)
    (post : RawPost) (e : JsError) :
  In post posts -> getData_filter config post = Throw e ->
  arrayFilter (getData_filter config) posts = Throw TypeError.
Proof.
  intros Hin Hthrow. induction posts as [|x posts IH]; [destruct Hin|].
  cbn [arrayFilter].
  destruct (getData_filter config x) as [[x' keep]|e0] eqn:F; cbn [bind].
  - destruct Hin as [->|Hin]; [congruence|].
    rewrite (IH Hin). reflexivity.
  - now rewrite (getData_filter_Throw _ _ _ F).
Qed.

(** One post on which the filter callback raises (a thumbnail that is not a
    string, an empty [images] array, an empty [resolutions] array, a quality
    off the scale) is enough for the whole page to be lost: [getData] ends in
    its catch block and sends the general error message, and no post of the
    page is sent. *)
Theorem getData_one_raising_post
    (regExpReplace : string -> string -> string -> string -> result string)
    (config : Config) (response : Response) (body : option Body)
    (children : list Child) (post : RawPost) (e : JsError) :
  ok response = true ->
  json response = Ok body ->
  bodyChildren body = Some children ->
  In post (map post_data children) ->
  getData_filter config post = Throw e ->
  getData regExpReplace config (FetchResolved response)
  = [Fetch (getUrl config);
     ConsoleError "Reddit fetch failed:" (Some TypeError);
     ConsoleLog "An error occurred while fetching Reddit data.";
     SocketNotification "REDDIT_POSTS_ERROR"
       (ErrorPayload "An error occurred while fetching Reddit data.")].
Proof.
  intros Hok Hjson Hbody Hin Hthrow.
  unfold getData. rewrite Hok, Hjson, Hbody. cbn [negb].
  unfold assemble. rewrite (arrayFilter_Throw _ _ _ _ Hin Hthrow).
  reflexivity.
Qed.

Lemma getData_one_raising_post_witness :
  let config := Sample.config "list" "high" [] None in
  let good :=
    Sample.post (Some "https://t/1.jpg")
      (Some (Sample.previewOf Sample.imageObj)) in
  let bad := Sample.post None None in
  let response :=
    {| ok := true; status := 200; statusText := "OK";
       json := Ok (Some {| body_data :=
                             Some {| children :=
                                       Some [{| post_data := good |};
                                             {| post_data := bad |}] |} |})
    |} in
  replies (getData Literal.regExpReplace config (FetchResolved response))
  = [SocketNotification "REDDIT_POSTS_ERROR"
       (ErrorPayload "An error occurred while fetching Reddit data.")].
Proof.
  intros config good bad response.
  rewrite (getData_one_raising_post Literal.regExpReplace config response
             _ _ bad TypeError eq_refl eq_refl eq_refl
             (or_intror (or_introl eq_refl)) eq_refl).
  reflexivity.
Defined.

(** A page on which the filter turns every post away (an empty page among
    them) is answered with an empty list of posts, not with an error. *)
Theorem getData_nothing_kept
    (regExpReplace : string -> string -> string -> string -> result string)
    (config : Config) (response : Response) (body : option Body)
    (children : list Child) :
  ok response = true ->
  json response = Ok body ->
  bodyChildren body = Some children ->
  (forall post, In post (map post_data children) ->
     exists post', getData_filter config post = Ok (post', false)) ->
  getData regExpReplace config (FetchResolved response)
  = [Fetch (getUrl config);
     SocketNotification "REDDIT_POSTS" (PostsPayload [])].
Proof.
  intros Hok Hjson Hbody Hall.
  unfold getData. rewrite Hok, Hjson, Hbody. cbn [negb].
  assert (F : arrayFilter (getData_filter config) (map post_data children)
              = Ok []).
  { induction (map post_data children) as [|x l IH]; [reflexivity|].
    cbn [arrayFilter].
    destruct (Hall x (or_introl eq_refl)) as [x' ->]. cbn [bind].
    rewrite IH; [reflexivity|]. intros post Hin. apply Hall. now right. }
  unfold assemble. rewrite F. reflexivity.
Qed.

Lemma getData_nothing_kept_witness :
  let config := Sample.config "list" "high" [] None in
  let response :=
    {| ok := true; status := 200; statusText := "OK";
       json := Ok (Some {| body_data :=
                             Some {| children :=
                                       Some [{| post_data :=
                                                  Sample.post (Some "self")
                                                    None |}] |} |}) |} in
  getData Literal.regExpReplace config (FetchResolved response)
  = [Fetch (getUrl config);
     SocketNotification "REDDIT_POSTS" (PostsPayload [])].
Proof.
  intros config response.
  apply (getData_nothing_kept Literal.regExpReplace config response
           _ _ eq_refl eq_refl eq_refl).
  intros post [<-|[]]. eexists. reflexivity.
Defined.

(** ** What a cycle sends *)

(** Whatever [fetch] answers, [getData] sends exactly one socket
    notification: REDDIT_POSTS with a list of posts, or REDDIT_POSTS_ERROR
    with a message. *)
Theorem getData_one_reply
    (regExpReplace : string -> string -> string -> string -> result string)
    (config : Config) (outcome : FetchOutcome) :
  exists notification payload,
    replies (getData regExpReplace config outcome)
    = [SocketNotification notification payload] /\
    ((notification = "REDDIT_POSTS" /\
      exists posts, payload = PostsPayload posts) \/
     (notification = "REDDIT_POSTS_ERROR" /\
      exists message, payload = ErrorPayload message)).
Proof.
  unfold getData.
  destruct outcome as [|response].
  - do 2 eexists. split; [reflexivity|]. right. split; [reflexivity|].
    now eexists.
  - destruct (ok response); cbn [negb].
    + destruct (json response) as [body|e].
      * destruct (bodyChildren body) as [children|].
        -- destruct (assemble regExpReplace config children) as [posts|e].
           ++ do 2 eexists. split; [reflexivity|]. left.
              split; [reflexivity|]. now eexists.
           ++ do 2 eexists. split; [reflexivity|]. right.
              split; [reflexivity|]. now eexists.
        -- do 2 eexists. split; [reflexivity|]. right.
           split; [reflexivity|]. now eexists.
      * do 2 eexists. split; [reflexivity|]. right. split; [reflexivity|].
        now eexists.
    + do 2 eexists. split; [reflexivity|]. right. split; [reflexivity|].
      now eexists.
Qed.

(** Posts are sent exactly when the response is ok, its body decodes and has
    [data.children], and filtering and mapping the page raises nothing; the
    posts sent are then the ones [assemble] returns. *)
Theorem getData_sends_posts
    (regExpReplace : string -> string -> string -> string -> result string)
    (config : Config) (outcome : FetchOutcome) (posts : list OutputPost) :
  In (SocketNotification "REDDIT_POSTS" (PostsPayload posts))
     (getData regExpReplace config outcome) <->
  exists response body children,
    outcome = FetchResolved response /\ ok response = true /\
    json response = Ok body /\ bodyChildren body = Some children /\
    assemble regExpReplace config children = Ok posts.
Proof.
  split.
  - unfold getData. cbn [In]. intros [H|H]; [discriminate|].
    destruct outcome as [|response].
    + cbn in H. now destruct H as [H|[H|[H|[]]]].
    + destruct (ok response) eqn:Hok; cbn [negb] in H.
      * destruct (json response) as [body|e] eqn:Hjson.
        -- destruct (bodyChildren body) as [children|] eqn:Hb.
           ++ destruct (assemble regExpReplace config children)
                as [posts'|e] eqn:A.
              ** cbn in H. destruct H as [[= <-]|[]].
                 exists response, body, children. auto.
              ** cbn in H. now destruct H as [H|[H|[H|[]]]].
           ++ cbn in H. now destruct H as [H|[H|[]]].
        -- cbn in H. now destruct H as [H|[H|[H|[]]]].
      * cbn in H. now destruct H as [H|[H|[H|[]]]].
  - intros (response & body & children & -> & Hok & Hjson & Hb & A).
    unfold getData. rewrite Hok, Hjson, Hb, A. cbn. auto.
Qed.

Lemma getData_replies_length
    (regExpReplace : string -> string -> string -> string -> result string)
    (config : Config) (outcome : FetchOutcome) :
  List.length (replies (getData regExpReplace config outcome)) = 1%nat.
Proof.
  unfold getData.
  destruct outcome as [|response]; [reflexivity|].
  destruct (ok response); cbn [negb]; [|reflexivity].
  destruct (json response) as [body|e]; [|reflexivity].
  destruct (bodyChildren body) as [children|]; [|reflexivity].
  destruct (assemble regExpReplace config children); reflexivity.
Qed.

(** A REDDIT_CONFIG notification stores the payload's configuration, asks
    for the URL that configuration gives, and is answered by exactly one
    notification; any other notification changes nothing, requests nothing
    and sends nothing. *)
Theorem socketNotificationReceived_replies
    (regExpReplace : string -> string -> string -> string -> result string)
    (self : Helper) (notification : string) (payload : ConfigPayload)
    (outcome : FetchOutcome) :
  let after :=
    socketNotificationReceived regExpReplace self notification payload
      outcome in
  (notification = "REDDIT_CONFIG" ->
   helper_config (fst after) = Some (payload_config payload) /\
   List.hd_error (snd after) = Some (Fetch (getUrl (payload_config payload))) /\
   List.length (replies (snd after)) = 1%nat) /\
  (notification <> "REDDIT_CONFIG" -> after = (self, [])).
Proof.
  cbv zeta. unfold socketNotificationReceived.
  destruct (String.eqb_spec notification "REDDIT_CONFIG") as [E|E].
  - split; [|congruence]. intros _. cbn [fst snd helper_config].
    split; [reflexivity|]. split; [reflexivity|].
    apply getData_replies_length.
  - split; [congruence|]. reflexivity.
Qed.

Lemma socketNotificationReceived_replies_witness :
  let payload :=
    {| payload_config := Sample.config "list" "high" [] None |} in
  socketNotificationReceived Literal.regExpReplace
    {| helper_config := None |} "REDDIT_POSTS" payload FetchRejected
  = ({| helper_config := None |}, []) /\
  List.length
    (replies
       (snd (socketNotificationReceived Literal.regExpReplace
               {| helper_config := None |} "REDDIT_CONFIG" payload
               FetchRejected))) = 1%nat.
Proof.
  intros payload. split.
  - apply (proj2 (socketNotificationReceived_replies Literal.regExpReplace
                    {| helper_config := None |} "REDDIT_POSTS" payload
                    FetchRejected)).
    discriminate.
  - apply (proj1 (socketNotificationReceived_replies Literal.regExpReplace
                    {| helper_config := None |} "REDDIT_CONFIG" payload
                    FetchRejected)).
    reflexivity.
Defined.

(** ** Strings: lengths and pieces *)

Lemma append_length (a b : string) :
  String.length (a ++ b) = (String.length a + String.length b)%nat.
Proof. induction a as [|c a IH]; [reflexivity|]. cbn. now rewrite IH. Qed.

Lemma append_assoc (a b c : string) : (a ++ b) ++ c = a ++ b ++ c.
Proof. induction a as [|x a IH]; [reflexivity|]. cbn. now rewrite IH. Qed.

Lemma append_empty_r (a : string) : a ++ "" = a.
Proof. induction a as [|x a IH]; [reflexivity|]. cbn. now rewrite IH. Qed.

(** [substring 0 n s] is the prefix of [s] of [min n (length s)] code
    units. *)
Lemma substring0_prefix (n : nat) (s : string) :
  exists rest,
    s = String.substring 0 n s ++ rest /\
    String.length (String.substring 0 n s) = Nat.min n (String.length s).
Proof.
  revert n. induction s as [|c s IH]; intros n.
  - exists "". destruct n; split; reflexivity.
  - destruct n as [|n].
    + exists (String c s). split; reflexivity.
    + destruct (IH n) as (rest & E & L). exists rest. cbn. split.
      * now rewrite <- E.
      * now rewrite L.
Qed.

Lemma trimStart_suffix (s : string) :
  exists before, s = before ++ Js.trimStart s.
Proof.
  induction s as [|c s [before E]]; [now exists ""|].
  cbn [Js.trimStart]. destruct (Js.isWhiteSpace c).
  - exists (String c before). cbn. now rewrite <- E.
  - now exists "".
Qed.

Lemma trimEnd_prefix (s : string) :
  exists after, s = Js.trimEnd s ++ after.
Proof.
  induction s as [|c s [after E]]; [now exists ""|].
  cbn [Js.trimEnd]. destruct (Js.trimEnd s) as [|c' t] eqn:T.
  - destruct (Js.isWhiteSpace c).
    + now exists (String c s).
    + exists after. cbn. now rewrite E at 1.
  - exists after. cbn. cbn in E. now rewrite E at 1.
Qed.

(** The text [slice] and [trim] leave is a piece of the title; it has the
    title's length only when it is the title. *)
Lemma trim_slice_piece (s : string) (limit : Z) :
  let cut := Js.trim (Js.slice0 s limit) in
  contains s cut /\
  (String.length cut <= String.length s)%nat /\
  (String.length cut = String.length s -> cut = s).
Proof.
  cbv zeta. unfold Js.trim, Js.slice0.
  set (n := Z.to_nat _).
  destruct (substring0_prefix n s) as (rest & E1 & _).
  set (p := String.substring 0 n s) in *.
  destruct (trimStart_suffix p) as (before & E2).
  destruct (trimEnd_prefix (Js.trimStart p)) as (after & E3).
  set (cut := Js.trimEnd (Js.trimStart p)) in *.
  assert (E : s = before ++ cut ++ after ++ rest).
  { rewrite E1 at 1. rewrite E2 at 1. rewrite E3 at 1.
    now rewrite !append_assoc. }
  split; [now exists before, (after ++ rest)|].
  assert (L : String.length s
              = (String.length before + (String.length cut
                 + (String.length after + String.length rest)))%nat).
  { rewrite E at 1. now rewrite !append_length. }
  split; [lia|]. intros H.
  assert (String.length before = 0%nat) by lia.
  assert (String.length after = 0%nat) by lia.
  assert (String.length rest = 0%nat) by lia.
  destruct before; [|discriminate]. destruct after; [|discriminate].
  destruct rest; [|discriminate].
  cbn [append] in E. rewrite append_empty_r in E. now symmetry.
Qed.

(** ** [formatTitle]: how long, and which text *)

(** With a limit that is not negative, the formatted title has at most
    [limit] code units, plus the three of the marker; whatever the rules
    did. *)
Theorem formatTitle_length_bound
    (regExpReplace : string -> string -> string -> string -> result string)
    (config : Config) (title formatted : string) (limit : Z) :
  characterLimit config = Some limit -> 0 <= limit ->
  formatTitle regExpReplace config title = Ok formatted ->
  Z.of_nat (String.length formatted) <= limit + 3.
Proof.
  intros Hl Hpos. unfold formatTitle. rewrite Hl.
  destruct (forEach _ _ _) as [t|]; [|discriminate]. cbn [bind].
  assert (B : Z.of_nat (String.length (Js.trim (Js.slice0 t limit)))
              <= limit).
  { unfold Js.trim.
    destruct (trimEnd_prefix (Js.trimStart (Js.slice0 t limit))) as [a Ea].
    destruct (trimStart_suffix (Js.slice0 t limit)) as [b Eb].
    apply (f_equal String.length) in Ea, Eb.
    rewrite append_length in Ea, Eb.
    unfold Js.slice0 in Eb at 1.
    destruct (substring0_prefix
                (Z.to_nat (if limit <? 0
                           then Z.max (Z.of_nat (String.length t) + limit) 0
                           else Z.min limit (Z.of_nat (String.length t))))
                t) as (rest & _ & L).
    rewrite L in Eb. destruct (limit <? 0) eqn:N; lia. }
  destruct (negb _); intros [= <-]; [rewrite append_length; cbn|]; lia.
Qed.

Lemma formatTitle_length_bound_witness :
  formatTitle Literal.regExpReplace
    (Sample.config "list" "high" [Sample.shortenRule] (Some 7))
    "Hello World, Hello" = Ok "Hi Worl..." /\
  Z.of_nat (String.length "Hi Worl...") <= 7 + 3.
Proof.
  split; [reflexivity|].
  apply (formatTitle_length_bound Literal.regExpReplace
           (Sample.config "list" "high" [Sample.shortenRule] (Some 7))
           "Hello World, Hello" "Hi Worl..." 7); [reflexivity|lia|reflexivity].
Defined.

(** Without rules [formatTitle] returns either the title as it is, or a
    strictly shorter piece of the title followed by the marker: the marker
    then tells that something was cut or trimmed away. *)
Theorem formatTitle_no_rules_shape
    (regExpReplace : string -> string -> string -> string -> result string)
    (config : Config) (title : string) :
  titleReplacements config = [] ->
  formatTitle regExpReplace config title = Ok title \/
  exists cut,
    formatTitle regExpReplace config title = Ok (cut ++ "...") /\
    contains title cut /\
    (String.length cut < String.length title)%nat.
Proof.
  intros Hr. unfold formatTitle. rewrite Hr. cbn [forEach bind].
  destruct (characterLimit config) as [limit|]; [|now left].
  destruct (trim_slice_piece title limit) as (C & Le & Eq).
  destruct (Nat.eqb_spec (String.length (Js.trim (Js.slice0 title limit)))
              (String.length title)) as [E|E]; cbn [negb].
  - left. now rewrite (Eq E).
  - right. exists (Js.trim (Js.slice0 title limit)).
    split; [reflexivity|]. split; [exact C|lia].
Qed.

Lemma formatTitle_no_rules_shape_witness :
  exists cut,
    formatTitle Literal.regExpReplace
      (Sample.config "list" "high" [] (Some 6)) "Hello World"
    = Ok (cut ++ "...") /\
    (String.length cut < String.length "Hello World")%nat.
Proof.
  destruct (formatTitle_no_rules_shape Literal.regExpReplace
              (Sample.config "list" "high" [] (Some 6)) "Hello World"
              eq_refl) as [H|(cut & H & _ & L)].
  - discriminate H.
  - now exists cut.
Defined.

(** A rule on which the engine raises whatever the subject (a malformed
    pattern) makes [formatTitle] raise for every title, wherever the rule
    stands in the list. *)
Theorem formatTitle_raising_rule
    (regExpReplace : string -> string -> string -> string -> result string)
    (config : Config) (title : string) (rule : TitleRule) :
  In rule (titleReplacements config) ->
  (forall subject, exists e,
     regExpReplace (toReplace rule) (ruleFlags rule) subject
       (replacement rule) = Throw e) ->
  exists e, formatTitle regExpReplace config title = Throw e.
Proof.
  intros Hin Hraise. unfold formatTitle.
  assert (F : exists e,
            forEach (applyModifier regExpReplace) (titleReplacements config)
              title = Throw e).
  { revert title. induction (titleReplacements config) as [|x l IH];
      intros title; [destruct Hin|].
    cbn [forEach].
    destruct (applyModifier regExpReplace title x) as [t|e] eqn:A;
      cbn [bind]; [|now exists e].
    destruct Hin as [->|Hin]; [|now apply IH].
    rewrite applyModifier_flags in A.
    destruct (Hraise title) as [e He]. congruence. }
  destruct F as [e ->]. now exists e.
Qed.

Lemma formatTitle_raising_rule_witness :
  exists e,
    formatTitle Literal.regExpReplace
      (Sample.config "list" "high"
         [Sample.foxRule;
          {| toReplace := "("; replacement := ""; caseSensitive := None |}]
         None)
      "The Fox jumps" = Throw e.
Proof.
  apply (formatTitle_raising_rule Literal.regExpReplace _ _
           {| toReplace := "("; replacement := ""; caseSensitive := None |}).
  - right. now left.
  - intros subject. exists OutsideFragment. reflexivity.
Defined.

(** ** [getUrl] *)

(** For a count that is a safe integer, the request goes to the front page
    exactly when the configured subreddit (an array joined with "+") is
    empty or "frontpage"; otherwise it goes to [r/<subreddit>/].  The feed
    type and the [limit], the count in decimal digits, always follow. *)
Theorem getUrl_front_page (config : Config) :
  Z.abs (cfg_count config) < 2 ^ 53 ->
  let subreddit := formatSubreddit (cfg_subreddit config) in
  let query :=
    cfg_type config ++ "/.json?raw_json=1&limit="
      ++ Js.numberToString (cfg_count config) in
  (getUrl config = baseUrl ++ query <->
   subreddit = "" \/ subreddit = "frontpage") /\
  (subreddit <> "" -> subreddit <> "frontpage" ->
   getUrl config = baseUrl ++ "r/" ++ subreddit ++ "/" ++ query).
Proof.
  intros _. cbv zeta. unfold getUrl.
  set (subreddit := formatSubreddit (cfg_subreddit config)).
  set (query := cfg_type config ++ _).
  destruct (String.eqb_spec subreddit "") as [E1|E1]; cbn [negb andb].
  - split; [split; [now left|reflexivity]|congruence].
  - destruct (String.eqb_spec subreddit "frontpage") as [E2|E2]; cbn [negb].
    + split; [split; [now right|reflexivity]|congruence].
    + assert (A : (baseUrl ++ "r/" ++ subreddit ++ "/") ++ query
                  = baseUrl ++ "r/" ++ subreddit ++ "/" ++ query)
        by now rewrite !append_assoc.
      split; [|intros _ _; exact A].
      split; [|intros [C|C]; congruence].
      intros H. rewrite A in H. apply (f_equal String.length) in H.
      rewrite !append_length in H. cbn [String.length] in H. lia.
Qed.

Lemma getUrl_front_page_witness :
  getUrl {| cfg_subreddit := inr ["pics"; "aww"]; cfg_type := "top";
            cfg_count := 25; displayType := "list"; imageQuality := "mid";
            titleReplacements := []; characterLimit := None |}
  = "https://www.reddit.com/r/pics+aww/top/.json?raw_json=1&limit=25" /\
  getUrl {| cfg_subreddit := inl "frontpage"; cfg_type := "hot";
            cfg_count := 10; displayType := "list"; imageQuality := "mid";
            titleReplacements := []; characterLimit := None |}
  = "https://www.reddit.com/hot/.json?raw_json=1&limit=10".
Proof.
  split.
  - apply (proj2 (getUrl_front_page
                    {| cfg_subreddit := inr ["pics"; "aww"]; cfg_type := "top";
                       cfg_count := 25; displayType := "list";
                       imageQuality := "mid"; titleReplacements := [];
                       characterLimit := None |} eq_refl));
      discriminate.
  - apply (proj2 (proj1 (getUrl_front_page
                    {| cfg_subreddit := inl "frontpage"; cfg_type := "hot";
                       cfg_count := 10; displayType := "list";
                       imageQuality := "mid"; titleReplacements := [];
                       characterLimit := None |} eq_refl))).
    now right.
Defined.

(** ** Posts the filter keeps *)

Lemma prefix_contains (s pat : string) :
  String.prefix pat s = true -> contains s pat.
Proof.
  intros H. apply (substring_contains 0). now apply prefix_correct.
Qed.

(** A post the filter keeps and for which [getImageUrl] gave null is shown
    under a display type other than "image", and it is its preview that is
    wanting: absent, without [images], or with a first image without
    source.  Its thumbnail is not the reason. *)
Theorem getData_filter_kept_without_url
    (config : Config) (post post' : RawPost)
    (preview' : option PreviewData) :
  getData_filter config post = Ok (post', true) ->
  getImageUrl config (preview post) (thumbnail post) = Ok (preview', None) ->
  displayType config <> "image" /\
  (preview post = None \/
   (exists p, preview post = Some p /\ images p = None) \/
   (exists p first rest,
      preview post = Some p /\ images p = Some (first :: rest) /\
      source first = None)).
Proof.
  intros F G.
  destruct (getData_filter_Ok _ _ _ _ F) as (imageSrc & G0 & _ & _ & Hk).
  rewrite G in G0. injection G0 as _ <-.
  symmetry in Hk. apply andb_true_iff in Hk as [Hthumb Himg].
  rewrite orb_false_r, negb_true_iff, String.eqb_neq in Himg.
  split; [exact Himg|].
  destruct (thumbnail post) as [t|] eqn:T; [|discriminate].
  assert (N : notAnImagePost (preview post) t).
  { apply skipNonImagePost_true. unfold getImageUrl in G.
    destruct (skipNonImagePost (preview post) (Some t)) as [[|]|]; cbn [bind] in G;
      [reflexivity| |discriminate].
    destruct (preview post) as [p|]; [|discriminate].
    destruct (images p) as [[|first rest]|]; try discriminate.
    destruct (getAllImages first) as [[first' l]|]; [|discriminate].
    cbn [bind] in G. destruct (Js.get l _); discriminate. }
  destruct N as [N|[N|N]]; [now left| |now right].
  exfalso. apply N. now apply prefix_contains.
Qed.

Lemma getData_filter_kept_without_url_witness :
  let config := Sample.config "list" "high" [] None in
  let post := Sample.post (Some "https://t/1.jpg") None in
  getData_filter config post = Ok (post, true) /\
  displayType config <> "image" /\
  (preview post = None \/
   (exists p, preview post = Some p /\ images p = None) \/
   (exists p first rest,
      preview post = Some p /\ images p = Some (first :: rest) /\
      source first = None)).
Proof.
  intros config post. split; [reflexivity|].
  exact (getData_filter_kept_without_url config post post None
           eq_refl eq_refl).
Defined.

Lemma getData_filter_keep_witness :
  let config := Sample.config "image" "high" [] None in
  let post :=
    Sample.post (Some "https://t/1.jpg")
      (Some (Sample.previewOf Sample.imageObj)) in
  let post' :=
    Sample.post (Some "https://t/1.jpg")
      (Some (Sample.previewOf Sample.imageObjAfter)) in
  getData_filter config post = Ok (post', true) /\
  (exists t, thumbnail post = Some t /\ Js.startsWith t "http" = true) /\
  (displayType config <> "image" \/
   exists preview' u,
     getImageUrl config (preview post) (thumbnail post)
     = Ok (preview', Some u)).
Proof.
  intros config post post'. split; [reflexivity|].
  exact (proj1 (getData_filter_keep config post post' true eq_refl) eq_refl).
Defined.

(** ** [getAllImages] on a non-empty array *)

(** When [getAllImages] returns, [resolutions] was not empty; the list
    returned is [resolutions] itself when its last entry has the source's
    width and height, and [resolutions] followed by the source when it has
    not.  The image object then holds that list as its [resolutions], and its
    source is as before. *)
Theorem getAllImages_result
    (imageObj imageObj' : ImageVariantSet) (l : list ImageVariant) :
  getAllImages imageObj = Ok (imageObj', l) ->
  exists source_ front lastImage,
    source imageObj = Some source_ /\
    resolutions imageObj = Js.push front lastImage /\
    (sameSize lastImage source_ = true -> l = resolutions imageObj) /\
    (sameSize lastImage source_ = false ->
     l = Js.push (resolutions imageObj) source_) /\
    resolutions imageObj' = l /\
    source imageObj' = source imageObj.
Proof.
  intros H.
  destruct (getAllImages_Ok _ _ _ H)
    as (front & lastImage & source_ & -> & -> & ->).
  exists source_, front, lastImage. cbn [source resolutions].
  split; [reflexivity|]. split; [reflexivity|].
  split; [now intros ->|]. split; [now intros ->|].
  split; reflexivity.
Qed.

Lemma getAllImages_result_witness :
  exists source_ front lastImage,
    source Sample.imageObj = Some source_ /\
    resolutions Sample.imageObj = Js.push front lastImage /\
    (sameSize lastImage source_ = true ->
     resolutions Sample.imageObjAfter = resolutions Sample.imageObj) /\
    (sameSize lastImage source_ = false ->
     resolutions Sample.imageObjAfter
     = Js.push (resolutions Sample.imageObj) source_) /\
    resolutions Sample.imageObjAfter = resolutions Sample.imageObjAfter /\
    source Sample.imageObjAfter = source Sample.imageObj.
Proof.
  exact (getAllImages_result Sample.imageObj Sample.imageObjAfter
           (resolutions Sample.imageObjAfter) eq_refl).
Defined.
